(** * PricingArchitect: the simulation engine and the insight generator

    A shallow embedding of the two memoised derivations of [src/App.tsx]
    ([simulation], lines 39-78, and [experimentInsight], lines 81-105)
    together with the record types of [types.ts], the edit handlers, the
    dashboard figures and the figures prepared by [getAIAnalysis].

    Numbers.  The code is embedded twice.

    - In the first embedding a JavaScript [number] is a [number]: an exact
      rational, or one of the three special values [NaN], [+Infinity],
      [-Infinity].  The arithmetic and the comparisons follow IEEE 754 on
      the special values (0/0 is [NaN], x/0 is an infinity, every
      comparison with [NaN] is false); on finite values they are exact, so
      binary64 rounding, overflow and the sign of zero are abstracted
      away.  It carries the properties that relate the values of one
      output to each other or that are stated for exact arithmetic.

    - In the second embedding, module [B64], a [number] is a binary64
      value ([PrimFloat.float]) and every operator of the source is the
      IEEE 754 operation, rounding, overflow and signed zeros included.
      It carries what depends on the digits that the program computes: the
      sentence of the insight generator, and the comparison of an Annual
      plan with its Monthly twelfth.

    Objects used as maps.  [perVariantAssumptions] is a [gmap] from the
    variant id to the per-variant record.  A property read on a
    JavaScript object also finds what the object inherits from
    [Object.prototype]; the names concerned are [inheritedMembers], and a
    read under one of them that finds no own entry yields an object that
    is truthy and has none of the fields of a record.

    Mutation.  [trafficSplitTotal], which the callback of [map] updates,
    is threaded through [mapVariants]; the in-place update of the flags by
    [forEach] is the [map] of [flagLeader]. *)

From Stdlib Require Import QArith Qcanon Qround Ascii.
From Stdlib Require PrimFloat FloatOps SpecFloat FloatAxioms.
From stdpp Require Import base numbers strings list gmap pretty.

Local Open Scope Qc_scope.

(** ** Numbers *)

Inductive number : Type :=
  | NaN
  | PosInf
  | NegInf
  | Fin (q : Qc).

(** A numeric literal of the source. *)
Definition lit (q : Q) : number := Fin (Q2Qc q).

Definition isFinite (x : number) : bool :=
  match x with Fin _ => true | _ => false end.

(** Unary minus. *)
Definition nneg (x : number) : number :=
  match x with
  | NaN => NaN
  | PosInf => NegInf
  | NegInf => PosInf
  | Fin q => Fin (- q)
  end.

(** An infinity of the given sign ([Gt] positive, [Lt] negative); a zero
    factor gives [NaN], which is what infinity times zero yields. *)
Definition signedInf (c : comparison) : number :=
  match c with Gt => PosInf | Lt => NegInf | Eq => NaN end.

Definition flipSign (c : comparison) : comparison :=
  match c with Gt => Lt | Lt => Gt | Eq => Eq end.

(** [x + y] *)
Definition nadd (x y : number) : number :=
  match x, y with
  | NaN, _ | _, NaN => NaN
  | PosInf, NegInf | NegInf, PosInf => NaN
  | PosInf, _ | _, PosInf => PosInf
  | NegInf, _ | _, NegInf => NegInf
  | Fin a, Fin b => Fin (a + b)
  end.

(** [x - y] *)
Definition nsub (x y : number) : number := nadd x (nneg y).

(** [x * y] *)
Definition nmul (x y : number) : number :=
  match x, y with
  | NaN, _ | _, NaN => NaN
  | PosInf, PosInf | NegInf, NegInf => PosInf
  | PosInf, NegInf | NegInf, PosInf => NegInf
  | PosInf, Fin b | Fin b, PosInf => signedInf (b ?= 0)
  | NegInf, Fin b | Fin b, NegInf => signedInf (flipSign (b ?= 0))
  | Fin a, Fin b => Fin (a * b)
  end.

(** [x / y].  A finite value over zero is an infinity of the sign of the
    numerator, and 0/0 is [NaN]; zero is unsigned here. *)
Definition ndiv (x y : number) : number :=
  match x, y with
  | NaN, _ | _, NaN => NaN
  | (PosInf | NegInf), (PosInf | NegInf) => NaN
  | PosInf, Fin b => if decide (b < 0) then NegInf else PosInf
  | NegInf, Fin b => if decide (b < 0) then PosInf else NegInf
  | Fin _, (PosInf | NegInf) => Fin 0
  | Fin a, Fin b =>
      if decide (b = 0) then signedInf (a ?= 0) else Fin (a / b)
  end.

(** [x < y] *)
Definition nlt (x y : number) : bool :=
  match x, y with
  | NaN, _ | _, NaN => false
  | _, NegInf => false
  | NegInf, _ => true
  | PosInf, _ => false
  | Fin _, PosInf => true
  | Fin a, Fin b => bool_decide (a < b)
  end.

(** [x > y] *)
Definition ngt (x y : number) : bool := nlt y x.

(** [x <= y] *)
Definition nle (x y : number) : bool :=
  match x, y with
  | NaN, _ | _, NaN => false
  | NegInf, _ => true
  | _, PosInf => true
  | _, NegInf => false
  | PosInf, _ => false
  | Fin a, Fin b => bool_decide (a ≤ b)
  end.

(** [x >= y] *)
Definition nge (x y : number) : bool := nle y x.

(** [x === y] on numbers: [NaN] is not equal to itself. *)
Definition neq (x y : number) : bool :=
  match x, y with
  | PosInf, PosInf | NegInf, NegInf => true
  | Fin a, Fin b => bool_decide (a = b)
  | _, _ => false
  end.

(** [Math.max(...xs)]: [-Infinity] on no argument, [NaN] as soon as one
    argument is [NaN], the largest argument otherwise. *)
Definition max2 (x y : number) : number :=
  match x, y with
  | NaN, _ | _, NaN => NaN
  | _, _ => if nlt x y then y else x
  end.

Definition Math_max (xs : list number) : number :=
  foldl max2 NegInf xs.

(** ** The records of [types.ts] *)

Inductive BillingCycle : Type := Monthly | Annual.

Global Instance BillingCycle_eq_dec : EqDecision BillingCycle.
Proof. solve_decision. Defined.

Record PricingVariant : Type := mkPricingVariant {
  id : string;
  name : string;
  price : number;
  billingCycle : BillingCycle;
  notes : string;
  isControl : bool
}.

(** Fields that two interfaces of the source share by name are kept apart
    by the module of their record. *)
Module VA.
Record VariantAssumptions : Type := mk {
  variantId : string;
  trafficSplit : number;
  convRate : number;
  churnRate : number
}.
End VA.
Export VA (VariantAssumptions, trafficSplit, convRate, churnRate).

Record GlobalAssumptions : Type := mkGlobalAssumptions {
  monthlyTraffic : number;
  perVariantAssumptions : gmap string VariantAssumptions
}.

Module VR.
Record VariantResult : Type := mk {
  variantId : string;
  name : string;
  visitors : number;
  conversions : number;
  revenue : number;
  arpu : number;
  rpv : number;
  isRevenueLeader : bool;
  isRPVLeader : bool
}.
End VR.
Export VR (VariantResult, visitors, conversions, revenue, arpu, rpv,
           isRevenueLeader, isRPVLeader).

Record SimulationOutput : Type := mkSimulationOutput {
  results : list VariantResult;
  trafficSplitTotal : number
}.

(** ** The simulation engine, [simulation] of [App.tsx] *)

(** The object literal on the right of [||] at line 42. *)
Definition zeroAssumptions (vid : string) : VariantAssumptions :=
  VA.mk vid (lit 0) (lit 0) (lit 0).

(** The property names that every object literal inherits from
    [Object.prototype] (ECMA-262, 20.1.3 and B.2.2): a read [obj[key]]
    under one of them that finds no own property returns the inherited
    member, a function or, for [__proto__], the prototype object. *)
Definition inheritedMembers : list string :=
  [ "constructor"; "hasOwnProperty"; "isPrototypeOf"; "propertyIsEnumerable";
    "toLocaleString"; "toString"; "valueOf"; "__proto__";
    "__defineGetter__"; "__defineSetter__"; "__lookupGetter__";
    "__lookupSetter__" ].

(** What the code reads in an inherited member: it has no [trafficSplit]
    and no [convRate], so both reads give [undefined], which is [NaN] in
    the sum of line 43 and in the quotients of lines 45-46, their only
    uses.  ([variantId] and [churnRate] are never read.) *)
Definition undefinedFields (vid : string) : VariantAssumptions :=
  VA.mk vid NaN NaN NaN.

(** [assumptions.perVariantAssumptions[v.id] || {...}]: a stored record
    and an inherited member are objects, hence truthy; the default is
    taken when the read gives [undefined], that is when the id is no own
    key and no inherited name. *)
Definition assumptionsOf (a : GlobalAssumptions) (v : PricingVariant)
  : VariantAssumptions :=
  match perVariantAssumptions a !! id v with
  | Some va => va
  | None =>
      if bool_decide (id v ∈ inheritedMembers) then undefinedFields (id v)
      else zeroAssumptions (id v)
  end.

Definition rawRevenueOf (conv : number) (v : PricingVariant) : number :=
  nmul conv (price v).

(** The callback of [variants.map] (lines 41-66).  It updates the captured
    [trafficSplitTotal], which is threaded here as the first component. *)
Definition variantStep (a : GlobalAssumptions) (total : number)
    (v : PricingVariant) : number * VariantResult :=
  let va := assumptionsOf a v in
  let total' := nadd total (trafficSplit va) in
  let visitors := nmul (monthlyTraffic a) (ndiv (trafficSplit va) (lit 100)) in
  let conversions := nmul visitors (ndiv (convRate va) (lit 100)) in
  let rawRevenue := rawRevenueOf conversions v in
  let normalizedMonthlyRevenue :=
    if decide (billingCycle v = Annual) then ndiv rawRevenue (lit 12)
    else rawRevenue in
  let arpu :=
    if ngt conversions (lit 0)
    then (if decide (billingCycle v = Annual) then ndiv (price v) (lit 12)
          else price v)
    else lit 0 in
  let rpv :=
    if ngt visitors (lit 0) then ndiv normalizedMonthlyRevenue visitors
    else lit 0 in
  (total',
   VR.mk (id v) (name v) visitors conversions normalizedMonthlyRevenue
         arpu rpv false false).

Fixpoint mapVariants (a : GlobalAssumptions) (total : number)
    (vs : list PricingVariant) : number * list VariantResult :=
  match vs with
  | [] => (total, [])
  | v :: vs' =>
      let '(total1, r) := variantStep a total v in
      let '(total2, rs) := mapVariants a total1 vs' in
      (total2, r :: rs)
  end.

(** The body of [results.forEach] (lines 71-74): the two flags are only
    ever switched on. *)
Definition flagLeader (maxRev maxRPV : number) (r : VariantResult)
  : VariantResult :=
  let revLeader :=
    if neq (revenue r) maxRev && ngt maxRev (lit 0) then true
    else isRevenueLeader r in
  let rpvLeader :=
    if neq (rpv r) maxRPV && ngt maxRPV (lit 0) then true
    else isRPVLeader r in
  VR.mk (VR.variantId r) (VR.name r) (visitors r) (conversions r)
        (revenue r) (arpu r) (rpv r) revLeader rpvLeader.

(** Lines 68-75. *)
Definition markLeaders (rs : list VariantResult) : list VariantResult :=
  if bool_decide (0 < length rs)%nat then
    let maxRev := Math_max (map revenue rs) in
    let maxRPV := Math_max (map rpv rs) in
    map (flagLeader maxRev maxRPV) rs
  else rs.

Definition simulation (variants : list PricingVariant)
    (assumptions : GlobalAssumptions) : SimulationOutput :=
  let '(total, rs) := mapVariants assumptions (lit 0) variants in
  mkSimulationOutput (markLeaders rs) total.

(** ** The insight generator, [experimentInsight] of [App.tsx] *)

Definition awaitingText : string := "Awaiting simulation data...".

Definition controlBestText : string :=
  "The Control variant remains the most efficient strategy. Test variants have not yet demonstrated a significant uplift in Revenue Per Visitor (RPV).".

Definition volumeClause : string :=
  "It improves conversion volume significantly, successfully offsetting the lower price point/ARPU.".

Definition arpuClause : string :=
  "High ARPU is driving the success here, though it comes at the cost of a lower conversion rate compared to the baseline.".

Definition expansionClause : string :=
  "It manages to increase both individual customer value and overall conversion—a highly efficient expansion strategy.".

(** [Number.prototype.toFixed] (ECMA-262, 21.1.3.3), for [0 <= f]. *)

(** The decimal digits of [n], padded with zeros on the left to [f + 1]
    characters, with a point before the last [f] of them. *)
Definition padLeft (k : nat) (m : string) : string :=
  String.concat "" (replicate (k - String.length m)%nat "0") +:+ m.

Definition placePoint (f : nat) (m : string) : string :=
  let m' := padLeft (f + 1) m in
  let k := String.length m' in
  if bool_decide (f = 0%nat) then m'
  else String.substring 0 (k - f) m' +:+ "."
       +:+ String.substring (k - f)%nat f m'.

(** The integer [n] for which [n / 10^f - x] is closest to zero, the
    larger one on a tie; [x] is non-negative here. *)
Definition nearestScaled (f : nat) (x : Qc) : Z :=
  Qfloor (this (x * Qc_of_Z (10 ^ Z.of_nat f) + Q2Qc 0.5)).

(** The sign and the magnitude that [toFixed] separates before it rounds
    ("if x < 0, set s to "-" and x to -x"). *)
Definition signOf (q : Qc) : string := if decide (q < 0) then "-" else "".

Definition magnitude (q : Qc) : Qc := if decide (q < 0) then - q else q.

Section Insight.

(** [Number::toString] on a finite value of magnitude at least [10^21]
    prints the shortest digit string that reads back as the same
    binary64 value; that has no counterpart on exact rationals and is
    kept as a parameter of the development. *)
Variable toStringLarge : Qc → string.

Definition toFixed (x : number) (f : nat) : string :=
  match x with
  | NaN => "NaN"
  | PosInf => "Infinity"
  | NegInf => "-Infinity"
  | Fin q =>
      let s := signOf q in
      let x := magnitude q in
      if decide (Qc_of_Z (10 ^ 21) ≤ x) then s +:+ toStringLarge x
      else
        let n := nearestScaled f x in
        s +:+ placePoint f (pretty (Z.to_N n))
  end.

(** The qualifying clause appended at lines 96-102. *)
Definition qualifyingClause (convDiff leaderArpu controlArpu : number)
  : string :=
  if ngt convDiff (lit 0) && nlt leaderArpu controlArpu then volumeClause
  else if nlt convDiff (lit 0) && ngt leaderArpu controlArpu then arpuClause
  else if ngt convDiff (lit 0) && nge leaderArpu controlArpu
  then expansionClause
  else "".

Definition liftOf (leader control : VariantResult) : number :=
  nmul (ndiv (nsub (rpv leader) (rpv control)) (rpv control)) (lit 100).

Definition convDiffOf (leader control : VariantResult) : number :=
  nmul (nsub (ndiv (conversions leader) (visitors leader))
             (ndiv (conversions control) (visitors control)))
       (lit 100).

(** Lines 91-104. *)
Definition winnerText (leader control : VariantResult) : string :=
  let lift := liftOf leader control in
  let convDiff := convDiffOf leader control in
  let text :=
    VR.name leader +:+ " is the winner with a " +:+ toFixed lift 1
    +:+ "% efficiency lift over Control. " in
  text +:+ qualifyingClause convDiff (arpu leader) (arpu control).

Definition findLeader (sim : SimulationOutput) : option VariantResult :=
  List.find (λ r, isRPVLeader r) (results sim).

Definition findControl (sim : SimulationOutput) : option VariantResult :=
  List.find (λ r, bool_decide (VR.variantId r = "v1")) (results sim).

Definition experimentInsight (sim : SimulationOutput) : string :=
  match findLeader sim, findControl sim with
  | Some leader, Some control =>
      if bool_decide (VR.variantId leader = "v1") then controlBestText
      else winnerText leader control
  | _, _ => awaitingText
  end.

End Insight.

(** ** The initial state of the page (lines 20-33) *)

Definition initialVariants : list PricingVariant :=
  [ mkPricingVariant "v1" "Control" (lit 499) Monthly "Current baseline" true;
    mkPricingVariant "v2" "Test Variant 1" (lit 349) Monthly
      "Testing lower price point" false;
    mkPricingVariant "v3" "Test Variant 2" (lit 3990) Annual
      "Testing annual commitment" false ].

Definition initialAssumptions : GlobalAssumptions :=
  mkGlobalAssumptions (lit 25000)
    (<["v1" := VA.mk "v1" (lit 34) (lit 4.2) (lit 5)]>
     (<["v2" := VA.mk "v2" (lit 33) (lit 6.1) (lit 8)]>
      (<["v3" := VA.mk "v3" (lit 33) (lit 2.8) (lit 2)]> ∅))).

(** ** Notions used in the statements *)

(** The result computed for one variant; the running total does not enter
    it. *)
Definition resultOf (a : GlobalAssumptions) (v : PricingVariant)
  : VariantResult := (variantStep a (lit 0) v).2.

Definition splitOf (a : GlobalAssumptions) (v : PricingVariant) : number :=
  trafficSplit (assumptionsOf a v).

Global Instance number_eq_dec : EqDecision number.
Proof. solve_decision. Defined.

Global Instance VariantResult_eq_dec : EqDecision VariantResult.
Proof. solve_decision. Defined.

(** The monthly-equivalent price of a variant. *)
Definition monthlyPrice (v : PricingVariant) : number :=
  match billingCycle v with
  | Annual => ndiv (price v) (lit 12)
  | Monthly => price v
  end.

(** Whether a string contains a percent sign; it tells the composed
    sentence apart from the two fixed ones. *)
Fixpoint hasPercent (s : string) : bool :=
  match s with
  | EmptyString => false
  | String c s' => bool_decide (c = "%"%char) || hasPercent s'
  end.

(** A variant list with fresh control flags: [flags v] replaces
    [isControl v]. *)
Definition withControlFlags (flags : PricingVariant → bool)
    (v : PricingVariant) : PricingVariant :=
  mkPricingVariant (id v) (name v) (price v) (billingCycle v) (notes v)
    (flags v).

(** ** Inputs on which the claims are evaluated *)

(** No per-variant entry at all. *)
Definition noAssumptions : GlobalAssumptions :=
  mkGlobalAssumptions (lit 25000) ∅.


(** The third initial variant, and the same plan billed monthly at a
    twelfth of the price. *)
Definition annualPlan : PricingVariant :=
  mkPricingVariant "v3" "Test Variant 2" (lit 3990) Annual
    "Testing annual commitment" false.

Definition monthlyTwelfthPlan : PricingVariant :=
  mkPricingVariant "v3" "Test Variant 2" (ndiv (lit 3990) (lit 12)) Monthly
    "Testing annual commitment" false.

(** Only the control variant receives traffic. *)
Definition controlOnlyAssumptions : GlobalAssumptions :=
  mkGlobalAssumptions (lit 25000)
    (<["v1" := VA.mk "v1" (lit 100) (lit 4.2) (lit 5)]> ∅).

(** A stand-in for the rendering of magnitudes from [10^21] on. *)
Definition plainLarge (x : Qc) : string := "1e+21".

(** ** The edit handlers of [App.tsx] (lines 108-120) *)

(** A well-typed pair [field, value] for [updateVariant]. *)
Inductive VariantEdit : Type :=
  | EditId (s : string)
  | EditName (s : string)
  | EditPrice (p : number)
  | EditBillingCycle (c : BillingCycle)
  | EditNotes (s : string)
  | EditIsControl (b : bool).

(** [{ ...v, [field]: value }] *)
Definition applyVariantEdit (e : VariantEdit) (v : PricingVariant)
  : PricingVariant :=
  match e with
  | EditId s =>
      mkPricingVariant s (name v) (price v) (billingCycle v) (notes v)
        (isControl v)
  | EditName s =>
      mkPricingVariant (id v) s (price v) (billingCycle v) (notes v)
        (isControl v)
  | EditPrice p =>
      mkPricingVariant (id v) (name v) p (billingCycle v) (notes v)
        (isControl v)
  | EditBillingCycle c =>
      mkPricingVariant (id v) (name v) (price v) c (notes v) (isControl v)
  | EditNotes s =>
      mkPricingVariant (id v) (name v) (price v) (billingCycle v) s
        (isControl v)
  | EditIsControl b =>
      mkPricingVariant (id v) (name v) (price v) (billingCycle v) (notes v) b
  end.

(** [prev.map(v => v.id === id ? { ...v, [field]: value } : v)] *)
Definition updateVariant (vid : string) (e : VariantEdit)
    (prev : list PricingVariant) : list PricingVariant :=
  map (λ v, if bool_decide (id v = vid) then applyVariantEdit e v else v) prev.

(** The numeric fields that [updateAssumption] is called with
    ([value: number]). *)
Inductive AssumptionEdit : Type :=
  | EditTrafficSplit (x : number)
  | EditConvRate (x : number)
  | EditChurnRate (x : number).

Definition applyAssumptionEdit (e : AssumptionEdit) (va : VariantAssumptions)
  : VariantAssumptions :=
  match e with
  | EditTrafficSplit x => VA.mk (VA.variantId va) x (convRate va) (churnRate va)
  | EditConvRate x =>
      VA.mk (VA.variantId va) (trafficSplit va) x (churnRate va)
  | EditChurnRate x =>
      VA.mk (VA.variantId va) (trafficSplit va) (convRate va) x
  end.

(** [updateAssumption] (lines 112-120) replaces the entry of [vId] by a
    copy with one field changed.  When [vId] has no entry the spread of
    [undefined] leaves every other field undefined, which is not a
    [VariantAssumptions] of [types.ts]: the model has no value for that
    state and answers [None]. *)
Definition updateAssumption (vId : string) (e : AssumptionEdit)
    (prev : GlobalAssumptions) : option GlobalAssumptions :=
  match perVariantAssumptions prev !! vId with
  | Some va =>
      Some (mkGlobalAssumptions (monthlyTraffic prev)
              (<[vId := applyAssumptionEdit e va]>
                 (perVariantAssumptions prev)))
  | None => None
  end.

(** ** The dashboard of [App.tsx] *)

(** Truthiness of a number: [0] and [NaN] are falsy. *)
Definition truthy (x : number) : bool :=
  match x with
  | NaN => false
  | Fin q => negb (bool_decide (q = 0))
  | PosInf | NegInf => true
  end.

(** The width of a segment of the traffic bar (line 199):
    [assumptions.perVariantAssumptions[v.id]?.trafficSplit || 0].  Without
    an own entry the read of [trafficSplit] gives [undefined], on
    [undefined] and on an inherited member alike, and the bar shows 0. *)
Definition barSplit (a : GlobalAssumptions) (v : PricingVariant) : number :=
  match perVariantAssumptions a !! id v with
  | Some va => if truthy (trafficSplit va) then trafficSplit va else lit 0
  | None => lit 0
  end.

(** The lift of a KPI card (lines 309-311), [controlResult] being
    [simulation.results.find(r => r.variantId === 'v1')] (line 122). *)
Definition cardLift (controlResult : option VariantResult)
    (r : VariantResult) : number :=
  match controlResult with
  | Some c =>
      if ngt (rpv c) (lit 0)
      then nmul (ndiv (nsub (rpv r) (rpv c)) (rpv c)) (lit 100)
      else lit 0
  | None => lit 0
  end.

Section Dashboard.

Variable toStringLarge : Qc → string.

(** The text of the lift on a card (line 340):
    [{lift > 0 ? '+' : ''}{lift.toFixed(1)}%]. *)
Definition cardLiftText (lift : number) : string :=
  (if ngt lift (lit 0) then "+" else "") +:+ toFixed toStringLarge lift 1
  +:+ "%".

End Dashboard.

(** ** The figures prepared by [getAIAnalysis] (lines 54-75 of its file) *)

(** [x !== y] on numbers. *)
Definition nne (x y : number) : bool := negb (neq x y).

(** The control result of the analysis: the first result whose variant
    (the first one with the result's id) has [isControl] set. *)
Definition analysisControl (sim : SimulationOutput)
    (variants : list PricingVariant) : option VariantResult :=
  List.find
    (λ r, match List.find (λ variant, bool_decide (id variant = VR.variantId r))
                  variants with
          | Some v => isControl v
          | None => false
          end)
    (results sim).

(** [results.results.find(r => r.variantId === v.id)] *)
Definition resultFor (sim : SimulationOutput) (v : PricingVariant)
  : option VariantResult :=
  List.find (λ r, bool_decide (VR.variantId r = id v)) (results sim).

Definition revenueLift (controlResult result : option VariantResult)
  : number :=
  match controlResult, result with
  | Some c, Some r =>
      if nne (revenue c) (lit 0)
      then nmul (ndiv (nsub (revenue r) (revenue c)) (revenue c)) (lit 100)
      else lit 0
  | _, _ => lit 0
  end.

(** [x && x.visitors !== 0 ? x.conversions / x.visitors : 0] *)
Definition convRateOf (x : option VariantResult) : number :=
  match x with
  | Some r =>
      if nne (visitors r) (lit 0) then ndiv (conversions r) (visitors r)
      else lit 0
  | None => lit 0
  end.

(** The test [variantConvRate !== undefined] always succeeds. *)
Definition conversionLift (controlResult result : option VariantResult)
  : number :=
  let controlConvRate := convRateOf controlResult in
  let variantConvRate := convRateOf result in
  if nne controlConvRate (lit 0)
  then nmul (ndiv (nsub variantConvRate controlConvRate) controlConvRate)
            (lit 100)
  else lit 0.

(** ** Further notions used in the statements *)

(** The five figures of a result. *)
Definition metricsOf (r : VariantResult)
  : number * number * number * number * number :=
  (visitors r, conversions r, revenue r, arpu r, rpv r).

(** Edits that leave the id of a variant alone. *)
Definition keepsId (e : VariantEdit) : bool :=
  match e with EditId _ => false | _ => true end.

(** Edits of a field that the engine copies or ignores: the name, the
    notes and the control flag. *)
Definition isPresentational (e : VariantEdit) : bool :=
  match e with
  | EditName _ | EditNotes _ | EditIsControl _ => true
  | _ => false
  end.

(** Two edits of the same field. *)
Definition sameField (e1 e2 : VariantEdit) : bool :=
  match e1, e2 with
  | EditId _, EditId _ | EditName _, EditName _ | EditPrice _, EditPrice _
  | EditBillingCycle _, EditBillingCycle _ | EditNotes _, EditNotes _
  | EditIsControl _, EditIsControl _ => true
  | _, _ => false
  end.

(** A result without its name. *)
Definition numbersOf (r : VariantResult)
  : string * (number * number * number * number * number) * bool * bool :=
  (VR.variantId r, metricsOf r, isRevenueLeader r, isRPVLeader r).

(** A number that is not negative: [x < 0] is false. *)
Definition notNegative (x : number) : bool := negb (nlt x (lit 0)).

(** The relative difference [(x - c) / c * 100] that both the sentence
    (line 91) and the cards (line 310) compute. *)
Definition relLift (c x : number) : number :=
  nmul (ndiv (nsub x c) c) (lit 100).

(** The control variant without traffic. *)
Definition idleControlAssumptions : GlobalAssumptions :=
  mkGlobalAssumptions (lit 25000)
    (<["v1" := VA.mk "v1" (lit 0) (lit 4.2) (lit 5)]>
     (<["v2" := VA.mk "v2" (lit 50) (lit 6.1) (lit 8)]>
      (<["v3" := VA.mk "v3" (lit 50) (lit 2.8) (lit 2)]> ∅))).

(** A result, if any, whose visitors, conversions and revenue are finite. *)
Definition finiteFigures (x : option VariantResult) : bool :=
  match x with
  | Some r =>
      isFinite (visitors r) && isFinite (conversions r)
      && isFinite (revenue r)
  | None => true
  end.

(** The initial assumptions with a traffic split that is not a number. *)
Definition brokenSplitAssumptions : GlobalAssumptions :=
  mkGlobalAssumptions (lit 25000)
    (<["v1" := VA.mk "v1" NaN (lit 4.2) (lit 5)]> ∅).

(** Every variant with a traffic split of 0. *)
Definition noTrafficAssumptions : GlobalAssumptions :=
  mkGlobalAssumptions (lit 25000)
    (<["v1" := VA.mk "v1" (lit 0) (lit 4.2) (lit 5)]>
     (<["v2" := VA.mk "v2" (lit 0) (lit 6.1) (lit 8)]>
      (<["v3" := VA.mk "v3" (lit 0) (lit 2.8) (lit 2)]> ∅))).

(** The initial assumptions with other churn rates, a different stored
    [variantId] and an entry for an id that no variant has. *)
Definition initialAssumptionsVariant : GlobalAssumptions :=
  mkGlobalAssumptions (lit 25000)
    (<["v1" := VA.mk "x" (lit 34) (lit 4.2) (lit 50)]>
     (<["v2" := VA.mk "v2" (lit 33) (lit 6.1) (lit 0)]>
      (<["v3" := VA.mk "v3" (lit 33) (lit 2.8) (lit 2)]>
       (<["v9" := VA.mk "v9" (lit 77) (lit 1) (lit 1)]> ∅)))).

(** The first two variants at the same price and the same conversion
    rate: they tie on rpv. *)
Definition tiedVariants : list PricingVariant :=
  [ mkPricingVariant "v1" "Control" (lit 499) Monthly "Current baseline" true;
    mkPricingVariant "v2" "Test Variant 1" (lit 499) Monthly "" false ].

Definition tiedAssumptions : GlobalAssumptions :=
  mkGlobalAssumptions (lit 25000)
    (<["v1" := VA.mk "v1" (lit 50) (lit 4.2) (lit 5)]>
     (<["v2" := VA.mk "v2" (lit 50) (lit 4.2) (lit 8)]> ∅)).

(** The same two variants with traffic splits of 10 and 90. *)
Definition unevenSplitAssumptions : GlobalAssumptions :=
  mkGlobalAssumptions (lit 25000)
    (<["v1" := VA.mk "v1" (lit 10) (lit 4.2) (lit 5)]>
     (<["v2" := VA.mk "v2" (lit 90) (lit 4.2) (lit 5)]> ∅)).

(** * The same code on binary64 numbers *)

(** The engine and the insight generator once more, every operator of the
    source being the IEEE 754 binary64 operation that JavaScript
    performs: [+], [-], [*], [/] round to nearest, ties to even; [<] and
    [<=] are false on [NaN]; [===] is false on [NaN] and true on the two
    zeros.  The records and the functions carry the names of the source;
    outside the module they are reached as [B64.simulation] and so on. *)
Module B64.

Import PrimFloat.

#[local] Set Warnings "-inexact-float".

Local Open Scope float_scope.

(** [Math.max] on two arguments: [NaN] if one of them is, and [+0] above
    [-0]. *)
Definition max2 (x y : float) : float :=
  if is_nan x || is_nan y then nan
  else if x <? y then y
  else if y <? x then x
  else if is_zero x && get_sign x then y
  else x.

(** [Math.max(...xs)] *)
Definition Math_max (xs : list float) : float :=
  foldl max2 neg_infinity xs.

Record PricingVariant : Type := mkPricingVariant {
  id : string;
  name : string;
  price : float;
  billingCycle : BillingCycle;
  notes : string;
  isControl : bool
}.

Module VA.
Record VariantAssumptions : Type := mk {
  variantId : string;
  trafficSplit : float;
  convRate : float;
  churnRate : float
}.
End VA.
Export VA (VariantAssumptions, trafficSplit, convRate, churnRate).

Record GlobalAssumptions : Type := mkGlobalAssumptions {
  monthlyTraffic : float;
  perVariantAssumptions : gmap string VariantAssumptions
}.

Module VR.
Record VariantResult : Type := mk {
  variantId : string;
  name : string;
  visitors : float;
  conversions : float;
  revenue : float;
  arpu : float;
  rpv : float;
  isRevenueLeader : bool;
  isRPVLeader : bool
}.
End VR.
Export VR (VariantResult, visitors, conversions, revenue, arpu, rpv,
           isRevenueLeader, isRPVLeader).

Record SimulationOutput : Type := mkSimulationOutput {
  results : list VariantResult;
  trafficSplitTotal : float
}.

(** The object literal on the right of [||] at line 42. *)
Definition zeroAssumptions (vid : string) : VariantAssumptions :=
  VA.mk vid 0 0 0.

(** The reads of [trafficSplit] and [convRate] in an inherited member:
    [undefined], which is [NaN] in the arithmetic of lines 43-46. *)
Definition undefinedFields (vid : string) : VariantAssumptions :=
  VA.mk vid nan nan nan.

(** [assumptions.perVariantAssumptions[v.id] || {...}] *)
Definition assumptionsOf (a : GlobalAssumptions) (v : PricingVariant)
  : VariantAssumptions :=
  match perVariantAssumptions a !! id v with
  | Some va => va
  | None =>
      if bool_decide (id v ∈ inheritedMembers) then undefinedFields (id v)
      else zeroAssumptions (id v)
  end.

(** The callback of [variants.map] (lines 41-66). *)
Definition variantStep (a : GlobalAssumptions) (total : float)
    (v : PricingVariant) : float * VariantResult :=
  let va := assumptionsOf a v in
  let total' := total + trafficSplit va in
  let visitors := monthlyTraffic a * (trafficSplit va / 100) in
  let conversions := visitors * (convRate va / 100) in
  let rawRevenue := conversions * price v in
  let normalizedMonthlyRevenue :=
    if decide (billingCycle v = Annual) then rawRevenue / 12
    else rawRevenue in
  let arpu :=
    if 0 <? conversions
    then (if decide (billingCycle v = Annual) then price v / 12
          else price v)
    else 0 in
  let rpv :=
    if 0 <? visitors then normalizedMonthlyRevenue / visitors
    else 0 in
  (total',
   VR.mk (id v) (name v) visitors conversions normalizedMonthlyRevenue
         arpu rpv false false).

Fixpoint mapVariants (a : GlobalAssumptions) (total : float)
    (vs : list PricingVariant) : float * list VariantResult :=
  match vs with
  | [] => (total, [])
  | v :: vs' =>
      let '(total1, r) := variantStep a total v in
      let '(total2, rs) := mapVariants a total1 vs' in
      (total2, r :: rs)
  end.

(** The body of [results.forEach] (lines 71-74). *)
Definition flagLeader (maxRev maxRPV : float) (r : VariantResult)
  : VariantResult :=
  let revLeader :=
    if (revenue r =? maxRev) && (0 <? maxRev) then true
    else isRevenueLeader r in
  let rpvLeader :=
    if (rpv r =? maxRPV) && (0 <? maxRPV) then true
    else isRPVLeader r in
  VR.mk (VR.variantId r) (VR.name r) (visitors r) (conversions r)
        (revenue r) (arpu r) (rpv r) revLeader rpvLeader.

(** Lines 68-75. *)
Definition markLeaders (rs : list VariantResult) : list VariantResult :=
  if bool_decide (0 < length rs)%nat then
    let maxRev := Math_max (map revenue rs) in
    let maxRPV := Math_max (map rpv rs) in
    map (flagLeader maxRev maxRPV) rs
  else rs.

Definition simulation (variants : list PricingVariant)
    (assumptions : GlobalAssumptions) : SimulationOutput :=
  let '(total, rs) := mapVariants assumptions 0 variants in
  mkSimulationOutput (markLeaders rs) total.

(** The result computed for one variant. *)
Definition resultOf (a : GlobalAssumptions) (v : PricingVariant)
  : VariantResult := (variantStep a 0 v).2.

(** The mathematical value of a binary64 number: [m * 2^e] with the
    sign, as a [number] of the first embedding.  Both zeros have the
    value 0. *)
Definition exactValue (x : float) : number :=
  match FloatOps.Prim2SF x with
  | SpecFloat.S754_nan => NaN
  | SpecFloat.S754_infinity false => PosInf
  | SpecFloat.S754_infinity true => NegInf
  | SpecFloat.S754_zero _ => lit 0
  | SpecFloat.S754_finite s m e =>
      let q := (inject_Z (Z.pos m) * Qpower (2 # 1) e)%Q in
      Fin (Q2Qc (if s then (- q)%Q else q))
  end.

Section Insight.

(** [Number::toString] on a value of magnitude at least [10^21], as in
    the first embedding. *)
Variable toStringLarge : Qc → string.

(** [Number.prototype.toFixed] rounds the mathematical value of its
    receiver (ECMA-262, 21.1.3.3, step 10: "let n be an integer for which
    n / 10^f - x is as close to zero as possible"). *)
Definition toFixed (x : float) (f : nat) : string :=
  toFixed toStringLarge (exactValue x) f.

(** The qualifying clause appended at lines 96-102. *)
Definition qualifyingClause (convDiff leaderArpu controlArpu : float)
  : string :=
  if (0 <? convDiff) && (leaderArpu <? controlArpu) then volumeClause
  else if (convDiff <? 0) && (controlArpu <? leaderArpu) then arpuClause
  else if (0 <? convDiff) && (controlArpu <=? leaderArpu)
  then expansionClause
  else "".

(** Line 91. *)
Definition liftOf (leader control : VariantResult) : float :=
  ((rpv leader - rpv control) / rpv control) * 100.

(** Line 92. *)
Definition convDiffOf (leader control : VariantResult) : float :=
  ((conversions leader / visitors leader)
   - (conversions control / visitors control)) * 100.

(** Lines 91-104. *)
Definition winnerText (leader control : VariantResult) : string :=
  let lift := liftOf leader control in
  let convDiff := convDiffOf leader control in
  let text :=
    VR.name leader +:+ " is the winner with a " +:+ toFixed lift 1
    +:+ "% efficiency lift over Control. " in
  text +:+ qualifyingClause convDiff (arpu leader) (arpu control).

Definition findLeader (sim : SimulationOutput) : option VariantResult :=
  List.find (λ r, isRPVLeader r) (results sim).

Definition findControl (sim : SimulationOutput) : option VariantResult :=
  List.find (λ r, bool_decide (VR.variantId r = "v1")) (results sim).

Definition experimentInsight (sim : SimulationOutput) : string :=
  match findLeader sim, findControl sim with
  | Some leader, Some control =>
      if bool_decide (VR.variantId leader = "v1") then controlBestText
      else winnerText leader control
  | _, _ => awaitingText
  end.

End Insight.

(** The initial state of the page (lines 20-33). *)
Definition initialVariants : list PricingVariant :=
  [ mkPricingVariant "v1" "Control" 499 Monthly "Current baseline" true;
    mkPricingVariant "v2" "Test Variant 1" 349 Monthly
      "Testing lower price point" false;
    mkPricingVariant "v3" "Test Variant 2" 3990 Annual
      "Testing annual commitment" false ].

Definition initialAssumptions : GlobalAssumptions :=
  mkGlobalAssumptions 25000
    (<["v1" := VA.mk "v1" 34 4.2 5]>
     (<["v2" := VA.mk "v2" 33 6.1 8]>
      (<["v3" := VA.mk "v3" 33 2.8 2]> ∅))).

(** A plan priced 100 on an Annual cycle, and the same plan on a Monthly
    cycle at a twelfth of that price. *)
Definition annualHundred : PricingVariant :=
  mkPricingVariant "v3" "Test Variant 2" 100 Annual "" false.

Definition monthlyHundredTwelfth : PricingVariant :=
  mkPricingVariant "v3" "Test Variant 2" (100 / 12) Monthly "" false.

(** Two variants at the same price and the same conversion rate, with
    traffic splits of 10 and 90. *)
Definition samePlanVariants : list PricingVariant :=
  [ mkPricingVariant "v1" "Control" 499 Monthly "" true;
    mkPricingVariant "v2" "Test Variant 1" 499 Monthly "" false ].

Definition unevenSplitAssumptions : GlobalAssumptions :=
  mkGlobalAssumptions 25000
    (<["v1" := VA.mk "v1" 10 4.2 5]>
     (<["v2" := VA.mk "v2" 90 4.2 5]> ∅)).

End B64.

(** * Properties *)

(** ** Arithmetic on [number] *)

Lemma nadd_0_r (x : number) : nadd x (lit 0) = x.
Proof. destruct x; simpl; try reflexivity. by rewrite Qcplus_0_r. Qed.

Lemma nmul_fin_0 (x : number) :
  isFinite x = true → nmul x (lit 0) = lit 0.
Proof.
  destruct x; simpl; try discriminate. intros _.
  unfold lit. f_equal. apply Qcmult_0_r.
Qed.

Lemma nmul_0_fin (x : number) :
  isFinite x = true → nmul (lit 0) x = lit 0.
Proof.
  destruct x; simpl; try discriminate. intros _.
  unfold lit. f_equal. apply Qcmult_0_l.
Qed.

Lemma ndiv_0_lit (c : Q) : Q2Qc c ≠ 0 → ndiv (lit 0) (lit c) = lit 0.
Proof.
  intros Hc. unfold lit; simpl. destruct (decide (Q2Qc c = 0)); [done|].
  f_equal. unfold Qcdiv. apply Qcmult_0_l.
Qed.

Lemma ngt_irrefl (x : number) : ngt x x = false.
Proof.
  destruct x; simpl; try reflexivity.
  apply bool_decide_eq_false. intros H. by apply (Qclt_not_eq _ _ H).
Qed.

(** ** The shape of the engine's output *)

Lemma mapVariants_results a total vs :
  (mapVariants a total vs).2 = map (resultOf a) vs.
Proof.
  revert total. induction vs as [|v vs IH]; intros total; simpl; [done|].
  specialize (IH (nadd total (trafficSplit (assumptionsOf a v)))).
  destruct (mapVariants a _ vs) as [t2 rs]; simpl in *. by rewrite IH.
Qed.

Lemma mapVariants_total a total vs :
  (mapVariants a total vs).1 = foldl (λ t v, nadd t (splitOf a v)) total vs.
Proof.
  revert total. induction vs as [|v vs IH]; intros total; simpl; [done|].
  specialize (IH (nadd total (trafficSplit (assumptionsOf a v)))).
  destruct (mapVariants a _ vs) as [t2 rs]; simpl in *. by rewrite IH.
Qed.

Lemma simulation_results vs a :
  results (simulation vs a) = markLeaders (map (resultOf a) vs).
Proof.
  unfold simulation. pose proof (mapVariants_results a (lit 0) vs) as H.
  destruct (mapVariants a (lit 0) vs) as [t rs]; simpl in *. by rewrite H.
Qed.

Lemma simulation_total vs a :
  trafficSplitTotal (simulation vs a)
  = foldl (λ t v, nadd t (splitOf a v)) (lit 0) vs.
Proof.
  unfold simulation. pose proof (mapVariants_total a (lit 0) vs) as H.
  destruct (mapVariants a (lit 0) vs) as [t rs]; simpl in *. by rewrite H.
Qed.

Lemma markLeaders_map rs :
  markLeaders rs
  = map (flagLeader (Math_max (map revenue rs)) (Math_max (map rpv rs))) rs.
Proof.
  unfold markLeaders. case_bool_decide as Hlen; [done|].
  destruct rs; [done | simpl in Hlen; lia].
Qed.

Lemma markLeaders_length rs : length (markLeaders rs) = length rs.
Proof. by rewrite markLeaders_map, length_map. Qed.

(** The [i]-th result is the [i]-th variant's, with the two flags set by
    [forEach]. *)
Lemma simulation_lookup vs a i v :
  vs !! i = Some v →
  results (simulation vs a) !! i
  = Some (flagLeader (Math_max (map revenue (map (resultOf a) vs)))
                     (Math_max (map rpv (map (resultOf a) vs)))
                     (resultOf a v)).
Proof.
  intros Hv. rewrite simulation_results, markLeaders_map.
  by rewrite !list_lookup_fmap, Hv.
Qed.

(** ** The per-variant formulas *)

(** C1.  For every variant list and assumptions record, the result at the
    position of a variant [v] carries [v]'s id and satisfies
    visitors = monthlyTraffic * (trafficSplit / 100),
    conversions = visitors * (convRate / 100),
    revenue = conversions * price, divided by 12 exactly when the billing
    cycle is Annual, and rpv = revenue / visitors when visitors > 0 and 0
    otherwise, where trafficSplit and convRate come from the assumptions
    looked up by [v]'s id. *)
Theorem C1_per_variant_formulas vs a i v :
  vs !! i = Some v →
  ∃ r, results (simulation vs a) !! i = Some r
    ∧ VR.variantId r = id v
    ∧ visitors r
      = nmul (monthlyTraffic a)
             (ndiv (trafficSplit (assumptionsOf a v)) (lit 100))
    ∧ conversions r
      = nmul (visitors r) (ndiv (convRate (assumptionsOf a v)) (lit 100))
    ∧ revenue r
      = match billingCycle v with
        | Annual => ndiv (nmul (conversions r) (price v)) (lit 12)
        | Monthly => nmul (conversions r) (price v)
        end
    ∧ rpv r
      = if ngt (visitors r) (lit 0) then ndiv (revenue r) (visitors r)
        else lit 0.
Proof.
  intros Hv. eexists. split; [by apply simulation_lookup|].
  simpl. unfold rawRevenueOf.
  repeat split; by destruct (billingCycle v).
Qed.

Lemma C1_per_variant_formulas_witness :
  initialVariants !! 0%nat
  = Some (mkPricingVariant "v1" "Control" (lit 499) Monthly
            "Current baseline" true)
  ∧ ∃ r, results (simulation initialVariants initialAssumptions) !! 0%nat
         = Some r
    ∧ VR.variantId r = "v1"
    ∧ visitors r = nmul (lit 25000) (ndiv (lit 34) (lit 100))
    ∧ conversions r = nmul (visitors r) (ndiv (lit 4.2) (lit 100))
    ∧ revenue r = nmul (conversions r) (lit 499)
    ∧ rpv r
      = if ngt (visitors r) (lit 0) then ndiv (revenue r) (visitors r)
        else lit 0.
Proof.
  split; [reflexivity|].
  apply (C1_per_variant_formulas initialVariants initialAssumptions 0
           (mkPricingVariant "v1" "Control" (lit 499) Monthly
              "Current baseline" true)).
  reflexivity.
Defined.

(** C9.  Scenario A: traffic 25000, splits 34/33/33, conversion rates
    4.2/6.1/2.8, prices 499/349/3990, cycles Monthly/Monthly/Annual.  In
    exact arithmetic the first variant has 8500 visitors, 357 conversions
    and revenue 178143; the third has 231 conversions, raw revenue 921690
    and normalised monthly revenue 76807.5. *)
Theorem C9_scenario_A :
  ∃ r1 r3 v3,
    results (simulation initialVariants initialAssumptions) !! 0%nat = Some r1
    ∧ results (simulation initialVariants initialAssumptions) !! 2%nat
      = Some r3
    ∧ initialVariants !! 2%nat = Some v3
    ∧ visitors r1 = lit 8500
    ∧ conversions r1 = lit 357
    ∧ revenue r1 = lit 178143
    ∧ conversions r3 = lit 231
    ∧ rawRevenueOf (conversions r3) v3 = lit 921690
    ∧ revenue r3 = lit 76807.5.
Proof.
  eexists _, _, _.
  split; [by apply simulation_lookup|].
  split; [by apply simulation_lookup|].
  split; [reflexivity|].
  repeat split; compute_done.
Qed.

(** ** Order on [number] and [Math.max] *)

Ltac by_cases_on x := destruct x; simpl in *; try done.

Lemma neq_true (x y : number) : neq x y = true → x = y ∧ x ≠ NaN.
Proof.
  by_cases_on x; by_cases_on y.
  rewrite bool_decide_eq_true. by intros ->.
Qed.

Lemma neq_refl (x : number) : x ≠ NaN → neq x x = true.
Proof. by_cases_on x. intros _. by apply bool_decide_eq_true. Qed.

Lemma nle_refl (x : number) : x ≠ NaN → nle x x = true.
Proof. by_cases_on x. intros _. apply bool_decide_eq_true, Qcle_refl. Qed.

Lemma nle_trans (x y z : number) :
  nle x y = true → nle y z = true → nle x z = true.
Proof.
  by_cases_on x; by_cases_on y; by_cases_on z.
  rewrite !bool_decide_eq_true. apply Qcle_trans.
Qed.

Lemma nle_antisym (x y : number) :
  nle x y = true → nle y x = true → x = y.
Proof.
  by_cases_on x; by_cases_on y.
  rewrite !bool_decide_eq_true. intros H1 H2. f_equal.
  by apply Qcle_antisym.
Qed.

Lemma nlt_nle (x y : number) : nlt x y = true → nle x y = true.
Proof.
  by_cases_on x; by_cases_on y.
  rewrite !bool_decide_eq_true. apply Qclt_le_weak.
Qed.

Lemma not_nlt_nle (x y : number) :
  x ≠ NaN → y ≠ NaN → nlt x y = false → nle y x = true.
Proof.
  by_cases_on x; by_cases_on y. intros _ _.
  rewrite bool_decide_eq_false, bool_decide_eq_true. apply Qcnot_lt_le.
Qed.

Lemma nle_nlt_false (x y : number) : nle x y = true → nlt y x = false.
Proof.
  by_cases_on x; by_cases_on y.
  rewrite bool_decide_eq_true, bool_decide_eq_false. apply Qcle_not_lt.
Qed.

Lemma nle_NegInf (x : number) : nle x NegInf = true → x = NegInf.
Proof. by_cases_on x. Qed.

Lemma foldl_max2_NaN (xs : list number) : foldl max2 NaN xs = NaN.
Proof. induction xs as [|x xs IH]; simpl; [done|]. apply IH. Qed.

Lemma foldl_max2_has_NaN (acc : number) (xs : list number) :
  NaN ∈ xs → foldl max2 acc xs = NaN.
Proof.
  revert acc. induction xs as [|x xs IH]; intros acc Hin.
  - by apply elem_of_nil in Hin.
  - apply elem_of_cons in Hin as [<-|Hin]; simpl.
    + replace (max2 acc NaN) with NaN by (by destruct acc).
      apply foldl_max2_NaN.
    + by apply IH.
Qed.

Lemma max2_spec (x y : number) :
  x ≠ NaN → y ≠ NaN →
  max2 x y ≠ NaN ∧ nle x (max2 x y) = true ∧ nle y (max2 x y) = true
  ∧ (max2 x y = x ∨ max2 x y = y).
Proof.
  intros Hx Hy.
  assert (max2 x y = if nlt x y then y else x) as -> by (by destruct x, y).
  destruct (nlt x y) eqn:Hlt.
  - repeat split; auto using nlt_nle, nle_refl.
  - repeat split; auto using not_nlt_nle, nle_refl.
Qed.

(** Without a [NaN] among the arguments the fold returns an upper bound
    of the accumulator and of every argument, and it is one of them. *)
Lemma foldl_max2_spec (acc : number) (xs : list number) :
  acc ≠ NaN → NaN ∉ xs →
  foldl max2 acc xs ≠ NaN
  ∧ nle acc (foldl max2 acc xs) = true
  ∧ (∀ x, x ∈ xs → nle x (foldl max2 acc xs) = true)
  ∧ (foldl max2 acc xs = acc ∨ foldl max2 acc xs ∈ xs).
Proof.
  revert acc. induction xs as [|x xs IH]; intros acc Hacc Hxs; simpl.
  - repeat split; auto using nle_refl. intros x Hx. by apply elem_of_nil in Hx.
  - apply not_elem_of_cons in Hxs as [Hx Hxs].
    destruct (max2_spec acc x) as (Hm & Ha & Hb & Hc); [done..|].
    destruct (IH (max2 acc x) Hm Hxs) as (H1 & H2 & H3 & H4).
    repeat split; [done|by eapply nle_trans| |].
    + intros y [->|Hy]%elem_of_cons; [by eapply nle_trans|by apply H3].
    + destruct H4 as [H4|H4]; [|right; by apply elem_of_cons; right].
      rewrite H4. destruct Hc as [->| ->]; [by left|].
      right. apply elem_of_cons. by left.
Qed.

Lemma Math_max_spec (xs : list number) :
  xs ≠ [] → NaN ∉ xs →
  Math_max xs ∈ xs ∧ ∀ x, x ∈ xs → nle x (Math_max xs) = true.
Proof.
  intros Hne Hxs. unfold Math_max.
  destruct (foldl_max2_spec NegInf xs) as (H1 & H2 & H3 & H4); [done..|].
  split; [|done]. destruct H4 as [H4|H4]; [|done].
  destruct xs as [|x xs]; [done|].
  assert (x = NegInf) as Hx.
  { apply nle_NegInf. rewrite <-H4. apply H3, elem_of_cons. by left. }
  rewrite H4, <-Hx. apply elem_of_cons. by left.
Qed.

(** The test of [forEach], read on the list: a value passes it exactly
    when it is the greatest of the list and positive. *)
Lemma leader_test_iff (xs : list number) (x : number) :
  x ∈ xs →
  neq x (Math_max xs) && ngt (Math_max xs) (lit 0) = true
  ↔ (∀ y, y ∈ xs → nle y x = true) ∧ ngt x (lit 0) = true.
Proof.
  intros Hx. rewrite andb_true_iff. split.
  - intros [[Heq Hnan]%neq_true Hpos].
    assert (NaN ∉ xs) as Hxs.
    { intros Hin. apply (foldl_max2_has_NaN NegInf) in Hin.
      unfold Math_max in Heq. congruence. }
    destruct (Math_max_spec xs) as [_ Hub]; [by intros ->; apply elem_of_nil in Hx|done|].
    rewrite Heq. by split.
  - intros [Hub Hpos].
    assert (NaN ∉ xs) as Hxs.
    { intros Hin. apply Hub in Hin. by destruct x. }
    destruct (Math_max_spec xs) as [Hin Hub']; [by intros ->; apply elem_of_nil in Hx|done|].
    assert (x = Math_max xs) as <-.
    { apply nle_antisym; [by apply Hub'|by apply Hub]. }
    split; [|done]. apply neq_refl. intros ->. by apply Hxs.
Qed.

(** ** Leader flags *)

Lemma markLeaders_revenue rs : map revenue (markLeaders rs) = map revenue rs.
Proof. rewrite markLeaders_map, map_map. by apply map_ext. Qed.

Lemma markLeaders_rpv rs : map rpv (markLeaders rs) = map rpv rs.
Proof. rewrite markLeaders_map, map_map. by apply map_ext. Qed.

Lemma flagLeader_revenue_flag m1 m2 r :
  isRevenueLeader (flagLeader m1 m2 r)
  = (neq (revenue r) m1 && ngt m1 (lit 0)) || isRevenueLeader r.
Proof. simpl. by destruct (neq (revenue r) m1 && ngt m1 (lit 0)). Qed.

Lemma flagLeader_rpv_flag m1 m2 r :
  isRPVLeader (flagLeader m1 m2 r)
  = (neq (rpv r) m2 && ngt m2 (lit 0)) || isRPVLeader r.
Proof. simpl. by destruct (neq (rpv r) m2 && ngt m2 (lit 0)). Qed.

(** What [forEach] leaves in a result of the engine, in terms of the
    final list. *)
Lemma simulation_flags vs a r :
  r ∈ results (simulation vs a) →
  isRevenueLeader r
  = neq (revenue r) (Math_max (map revenue (results (simulation vs a))))
    && ngt (Math_max (map revenue (results (simulation vs a)))) (lit 0)
  ∧ isRPVLeader r
  = neq (rpv r) (Math_max (map rpv (results (simulation vs a))))
    && ngt (Math_max (map rpv (results (simulation vs a)))) (lit 0).
Proof.
  rewrite simulation_results, markLeaders_revenue, markLeaders_rpv.
  rewrite markLeaders_map.
  intros (r0 & -> & Hr0)%list_elem_of_fmap.
  apply list_elem_of_fmap in Hr0 as (v & -> & _).
  rewrite flagLeader_revenue_flag, flagLeader_rpv_flag. simpl.
  by rewrite !orb_false_r.
Qed.

(** C2.  In every output of the engine a result is flagged revenue leader
    exactly when its revenue is the greatest revenue of the output and is
    positive, so that every result tying the maximum is flagged; the same
    holds for the RPV flag with respect to rpv.  When no revenue (no rpv)
    exceeds 0 no result carries the flag, and an empty variant list gives
    no result at all. *)
Theorem C2_leader_flags vs a :
  (∀ r, r ∈ results (simulation vs a) →
     (isRevenueLeader r = true
      ↔ (∀ r', r' ∈ results (simulation vs a) →
               nle (revenue r') (revenue r) = true)
        ∧ ngt (revenue r) (lit 0) = true)
     ∧ (isRPVLeader r = true
        ↔ (∀ r', r' ∈ results (simulation vs a) →
                 nle (rpv r') (rpv r) = true)
          ∧ ngt (rpv r) (lit 0) = true))
  ∧ ((∀ r', r' ∈ results (simulation vs a) →
            ngt (revenue r') (lit 0) = false) →
     ∀ r, r ∈ results (simulation vs a) → isRevenueLeader r = false)
  ∧ ((∀ r', r' ∈ results (simulation vs a) → ngt (rpv r') (lit 0) = false) →
     ∀ r, r ∈ results (simulation vs a) → isRPVLeader r = false)
  ∧ (vs = [] → results (simulation vs a) = []).
Proof.
  assert (∀ r, r ∈ results (simulation vs a) →
     (isRevenueLeader r = true
      ↔ (∀ r', r' ∈ results (simulation vs a) →
               nle (revenue r') (revenue r) = true)
        ∧ ngt (revenue r) (lit 0) = true)
     ∧ (isRPVLeader r = true
        ↔ (∀ r', r' ∈ results (simulation vs a) →
                 nle (rpv r') (rpv r) = true)
          ∧ ngt (rpv r) (lit 0) = true)) as Hiff.
  { intros r Hr. destruct (simulation_flags vs a r Hr) as [-> ->].
    split.
    - rewrite leader_test_iff by (by apply list_elem_of_fmap_2).
      split; intros [Hub Hpos]; (split; [|done]).
      + intros r' Hr'. by apply Hub, list_elem_of_fmap_2.
      + intros y (r' & -> & Hr')%list_elem_of_fmap. by apply Hub.
    - rewrite leader_test_iff by (by apply list_elem_of_fmap_2).
      split; intros [Hub Hpos]; (split; [|done]).
      + intros r' Hr'. by apply Hub, list_elem_of_fmap_2.
      + intros y (r' & -> & Hr')%list_elem_of_fmap. by apply Hub. }
  split; [done|]. repeat split.
  - intros Hnone r Hr. destruct (isRevenueLeader r) eqn:Hflag; [|done].
    apply (Hiff r Hr) in Hflag as [_ Hpos]. by rewrite Hnone in Hpos.
  - intros Hnone r Hr. destruct (isRPVLeader r) eqn:Hflag; [|done].
    apply (Hiff r Hr) in Hflag as [_ Hpos]. by rewrite Hnone in Hpos.
  - by intros ->.
Qed.

Lemma C2_leader_flags_witness :
  (∃ r, r ∈ results (simulation initialVariants initialAssumptions)
      ∧ isRevenueLeader r = true
      ∧ (∀ r', r' ∈ results (simulation initialVariants initialAssumptions) →
               nle (revenue r') (revenue r) = true)
      ∧ ngt (revenue r) (lit 0) = true)
  ∧ (∀ r, r ∈ results (simulation initialVariants noAssumptions) →
          isRevenueLeader r = false)
  ∧ (∀ r, r ∈ results (simulation initialVariants noAssumptions) →
          isRPVLeader r = false)
  ∧ results (simulation [] initialAssumptions) = [].
Proof.
  split; [|split; [|split]].
  - destruct (results (simulation initialVariants initialAssumptions))
      as [|r rs] eqn:Hrs; [by vm_compute in Hrs|].
    exists r.
    assert (r ∈ results (simulation initialVariants initialAssumptions))
      as Hin by (rewrite Hrs; apply elem_of_cons; by left).
    assert (isRevenueLeader r = true) as Hflag.
    { assert (isRevenueLeader <$> head (results
                (simulation initialVariants initialAssumptions)) = Some true)
        as Hhd by (vm_compute; reflexivity).
      rewrite Hrs in Hhd. simpl in Hhd. congruence. }
    split; [by rewrite <-Hrs|]. split; [done|]. rewrite <-Hrs.
    by apply (proj1 (C2_leader_flags initialVariants initialAssumptions) r Hin).
  - apply (proj1 (proj2 (C2_leader_flags initialVariants noAssumptions))).
    apply Forall_forall. vm_compute. repeat constructor.
  - apply (proj1 (proj2 (proj2
             (C2_leader_flags initialVariants noAssumptions)))).
    apply Forall_forall. vm_compute. repeat constructor.
  - apply (proj2 (proj2 (proj2 (C2_leader_flags [] initialAssumptions)))).
    reflexivity.
Defined.

Lemma nlt_nle_trans' (x y z : number) :
  nlt x y = true → nle y z = true → nlt x z = true.
Proof.
  by_cases_on x; by_cases_on y; by_cases_on z.
  rewrite !bool_decide_eq_true. apply Qclt_le_trans.
Qed.

(** The flag test on a list of values: some value passes it exactly when
    no value is [NaN] and some value is positive. *)
Lemma some_leader_iff (xs : list number) :
  (∃ x, x ∈ xs
        ∧ (neq x (Math_max xs) && ngt (Math_max xs) (lit 0)) = true)
  ↔ (NaN ∉ xs) ∧ ∃ x, x ∈ xs ∧ ngt x (lit 0) = true.
Proof.
  split.
  - intros (x & Hx & Htest). pose proof Htest as Htest'.
    apply leader_test_iff in Htest as [Hub Hpos]; [|done].
    split; [|by exists x].
    intros Hnan. apply Hub in Hnan. by destruct x.
  - intros [Hnan (x & Hx & Hpos)].
    destruct (Math_max_spec xs) as [Hin Hub];
      [by intros ->; apply elem_of_nil in Hx|done|].
    exists (Math_max xs). split; [done|].
    apply leader_test_iff; [done|]. split; [done|].
    unfold ngt in *. eapply nlt_nle_trans'; [exact Hpos|by apply Hub].
Qed.

(** In an output of the engine some result is flagged RPV leader exactly
    when no rpv is [NaN] and some rpv is positive. *)
Lemma rpv_leader_exists_iff vs a :
  (∃ r, r ∈ results (simulation vs a) ∧ isRPVLeader r = true)
  ↔ (∀ r, r ∈ results (simulation vs a) → rpv r ≠ NaN)
    ∧ ∃ r, r ∈ results (simulation vs a) ∧ ngt (rpv r) (lit 0) = true.
Proof.
  split.
  - intros (r & Hr & Hflag).
    destruct (simulation_flags vs a r Hr) as [_ Hrpv].
    rewrite Hrpv in Hflag.
    destruct (proj1 (some_leader_iff (map rpv (results (simulation vs a)))))
      as [Hnan (x & (r' & -> & Hr')%list_elem_of_fmap & Hpos)].
    { exists (rpv r). split; [by apply list_elem_of_fmap_2|done]. }
    split; [|by exists r'].
    intros r0 Hr0 H0. apply Hnan. rewrite <-H0.
    by apply list_elem_of_fmap_2.
  - intros [Hnan (r & Hr & Hpos)].
    destruct (proj2 (some_leader_iff (map rpv (results (simulation vs a)))))
      as (x & (r' & -> & Hr')%list_elem_of_fmap & Htest).
    { split.
      - intros (r0 & H0 & Hr0)%list_elem_of_fmap. by apply (Hnan r0).
      - exists (rpv r). split; [by apply list_elem_of_fmap_2|done]. }
    exists r'. split; [done|].
    by destruct (simulation_flags vs a r' Hr') as [_ ->].
Qed.

(** The output has a result with id ["v1"] exactly when some variant has
    that id. *)
Lemma control_result_iff vs a :
  (∃ r, r ∈ results (simulation vs a) ∧ VR.variantId r = "v1")
  ↔ ∃ v, v ∈ vs ∧ id v = "v1".
Proof.
  rewrite simulation_results, markLeaders_map. split.
  - intros (r & Hr & Hid).
    apply list_elem_of_fmap in Hr as (r0 & -> & Hr0).
    apply list_elem_of_fmap in Hr0 as (v & -> & Hv). by exists v.
  - intros (v & Hv & Hid).
    exists (flagLeader (Math_max (map revenue (map (resultOf a) vs)))
              (Math_max (map rpv (map (resultOf a) vs))) (resultOf a v)).
    split; [|exact Hid].
    by apply list_elem_of_fmap_2, list_elem_of_fmap_2.
Qed.

(** ** ARPU *)

Lemma nonneg_nonzero_pos (x : number) :
  nge x (lit 0) = true → x ≠ lit 0 → ngt x (lit 0) = true.
Proof.
  by_cases_on x. rewrite !bool_decide_eq_true. intros Hle Hne.
  destruct (Qcle_lt_or_eq _ _ Hle) as [Hlt|Heq]; [done|].
  destruct Hne. unfold lit. f_equal. by rewrite <-Heq.
Qed.

(** C3.  The engine's arpu is 0 when the variant's conversions are 0 and
    otherwise (conversions being a non-negative quantity) it is price/12
    for an Annual cycle and price for a Monthly one.  It therefore depends
    on price and cycle only: two converting variants with the same price
    and cycle have the same arpu whatever their traffic and conversion
    volumes.  It is not the quotient revenue/conversions: the two differ
    on a variant without conversions. *)
Theorem C3_arpu_price_derived :
  (∀ vs a i v, vs !! i = Some v →
     ∃ r, results (simulation vs a) !! i = Some r
       ∧ arpu r = (if ngt (conversions r) (lit 0) then monthlyPrice v
                   else lit 0)
       ∧ (conversions r = lit 0 → arpu r = lit 0)
       ∧ (nge (conversions r) (lit 0) = true → conversions r ≠ lit 0 →
          arpu r = monthlyPrice v))
  ∧ (∀ vs1 a1 i1 v1 r1 vs2 a2 i2 v2 r2,
       vs1 !! i1 = Some v1 → results (simulation vs1 a1) !! i1 = Some r1 →
       vs2 !! i2 = Some v2 → results (simulation vs2 a2) !! i2 = Some r2 →
       price v1 = price v2 → billingCycle v1 = billingCycle v2 →
       ngt (conversions r1) (lit 0) = true →
       ngt (conversions r2) (lit 0) = true →
       arpu r1 = arpu r2)
  ∧ (∃ vs a r, r ∈ results (simulation vs a)
       ∧ arpu r ≠ ndiv (revenue r) (conversions r)).
Proof.
  assert (∀ vs a i v r, vs !! i = Some v →
            results (simulation vs a) !! i = Some r →
            arpu r = (if ngt (conversions r) (lit 0) then monthlyPrice v
                      else lit 0)) as Harpu.
  { intros vs a i v r Hv Hr.
    rewrite (simulation_lookup vs a i v Hv) in Hr. injection Hr as <-.
    simpl. unfold monthlyPrice.
    by destruct (billingCycle v). }
  split; [|split].
  - intros vs a i v Hv. eexists. split; [by apply simulation_lookup|].
    pose proof (Harpu vs a i v _ Hv (simulation_lookup vs a i v Hv)) as H.
    split; [done|]. split.
    + intros H0. rewrite H, H0. by rewrite ngt_irrefl.
    + intros Hge Hne. rewrite H. by rewrite nonneg_nonzero_pos.
  - intros vs1 a1 i1 v1 r1 vs2 a2 i2 v2 r2 Hv1 Hr1 Hv2 Hr2 Hp Hc Hc1 Hc2.
    rewrite (Harpu _ _ _ _ _ Hv1 Hr1), (Harpu _ _ _ _ _ Hv2 Hr2), Hc1, Hc2.
    unfold monthlyPrice. by rewrite Hp, Hc.
  - exists initialVariants, noAssumptions.
    destruct (results (simulation initialVariants noAssumptions))
      as [|r rs] eqn:Hrs; [by vm_compute in Hrs|].
    exists r. split; [apply elem_of_cons; by left|].
    assert ((λ r, bool_decide (arpu r ≠ ndiv (revenue r) (conversions r)))
              <$> head (results (simulation initialVariants noAssumptions))
            = Some true) as Hhd by (vm_compute; reflexivity).
    rewrite Hrs in Hhd. simpl in Hhd. injection Hhd as Hhd.
    by apply bool_decide_eq_true in Hhd.
Qed.

Lemma C3_arpu_price_derived_witness :
  ∃ v3 r,
    initialVariants !! 2%nat = Some v3
    ∧ results (simulation initialVariants initialAssumptions) !! 2%nat
      = Some r
    ∧ nge (conversions r) (lit 0) = true
    ∧ conversions r ≠ lit 0
    ∧ arpu r = monthlyPrice v3
    ∧ monthlyPrice v3 = lit 332.5.
Proof.
  exists (mkPricingVariant "v3" "Test Variant 2" (lit 3990) Annual
            "Testing annual commitment" false).
  destruct (proj1 C3_arpu_price_derived initialVariants initialAssumptions
              2%nat _ eq_refl) as (r & Hr & _ & _ & Hnz).
  exists r.
  assert (conversions r = lit 231) as Hc.
  { assert (conversions
              <$> results (simulation initialVariants initialAssumptions)
                  !! 2%nat = Some (lit 231)) as H by compute_done.
    rewrite Hr in H. simpl in H. congruence. }
  assert (nge (conversions r) (lit 0) = true) as Hge
    by (rewrite Hc; vm_compute; reflexivity).
  assert (conversions r ≠ lit 0) as Hne by (rewrite Hc; compute_done).
  repeat split; [done..|by apply Hnz|compute_done].
Defined.

(** ** Totality and defaults *)

Lemma flagLeader_visitors m1 m2 r : visitors (flagLeader m1 m2 r) = visitors r.
Proof. done. Qed.

Lemma flagLeader_conversions m1 m2 r :
  conversions (flagLeader m1 m2 r) = conversions r.
Proof. done. Qed.

Lemma flagLeader_revenue m1 m2 r : revenue (flagLeader m1 m2 r) = revenue r.
Proof. done. Qed.

Lemma flagLeader_arpu m1 m2 r : arpu (flagLeader m1 m2 r) = arpu r.
Proof. done. Qed.

Lemma flagLeader_rpv m1 m2 r : rpv (flagLeader m1 m2 r) = rpv r.
Proof. done. Qed.

Lemma resultOf_visitors a v :
  visitors (resultOf a v)
  = nmul (monthlyTraffic a) (ndiv (trafficSplit (assumptionsOf a v)) (lit 100)).
Proof. done. Qed.

Lemma resultOf_conversions a v :
  conversions (resultOf a v)
  = nmul (visitors (resultOf a v))
         (ndiv (convRate (assumptionsOf a v)) (lit 100)).
Proof. done. Qed.

Lemma resultOf_revenue a v :
  revenue (resultOf a v)
  = match billingCycle v with
    | Annual => ndiv (nmul (conversions (resultOf a v)) (price v)) (lit 12)
    | Monthly => nmul (conversions (resultOf a v)) (price v)
    end.
Proof. unfold resultOf; simpl. by destruct (billingCycle v). Qed.

Lemma resultOf_arpu a v :
  arpu (resultOf a v)
  = if ngt (conversions (resultOf a v)) (lit 0)
    then match billingCycle v with
         | Annual => ndiv (price v) (lit 12)
         | Monthly => price v
         end
    else lit 0.
Proof. unfold resultOf; simpl. by destruct (billingCycle v). Qed.

Lemma resultOf_rpv a v :
  rpv (resultOf a v)
  = if ngt (visitors (resultOf a v)) (lit 0)
    then ndiv (revenue (resultOf a v)) (visitors (resultOf a v))
    else lit 0.
Proof. done. Qed.

Lemma assumptionsOf_own a v va :
  perVariantAssumptions a !! id v = Some va → assumptionsOf a v = va.
Proof. unfold assumptionsOf. by intros ->. Qed.

Lemma assumptionsOf_absent a v :
  perVariantAssumptions a !! id v = None → id v ∉ inheritedMembers →
  assumptionsOf a v = zeroAssumptions (id v).
Proof.
  unfold assumptionsOf. intros -> Hplain. by rewrite bool_decide_eq_false_2.
Qed.

Lemma assumptionsOf_inherited a v :
  perVariantAssumptions a !! id v = None → id v ∈ inheritedMembers →
  assumptionsOf a v = undefinedFields (id v).
Proof.
  unfold assumptionsOf. intros -> Hin. by rewrite bool_decide_eq_true_2.
Qed.

Lemma zero_percent : ndiv (lit 0) (lit 100) = lit 0.
Proof. by apply ndiv_0_lit. Qed.

Lemma foldl_nadd_skip a v total :
  perVariantAssumptions a !! id v = None → id v ∉ inheritedMembers →
  nadd total (splitOf a v) = total.
Proof.
  intros Hv Hplain. unfold splitOf. rewrite assumptionsOf_absent by done.
  apply nadd_0_r.
Qed.

(** The output has one result per variant, in the order of the variants. *)
Lemma simulation_ids vs a :
  map VR.variantId (results (simulation vs a)) = map id vs.
Proof.
  rewrite simulation_results, markLeaders_map, !map_map. by apply map_ext.
Qed.

(** What the default of line 42 achieves.  A variant whose id is no own
    key of the assumptions and no inherited name is computed with the
    zeroed default and, traffic and price being finite numbers, gets
    visitors = conversions = revenue = rpv = 0; it adds nothing to
    trafficSplitTotal.  On the empty variant list the output has no result
    and trafficSplitTotal = 0. *)
Lemma absent_id_gets_defaults :
  (∀ vs a i v,
     vs !! i = Some v → perVariantAssumptions a !! id v = None →
     id v ∉ inheritedMembers →
     assumptionsOf a v = VA.mk (id v) (lit 0) (lit 0) (lit 0)
     ∧ (isFinite (monthlyTraffic a) = true → isFinite (price v) = true →
        ∃ r, results (simulation vs a) !! i = Some r
          ∧ visitors r = lit 0 ∧ conversions r = lit 0
          ∧ revenue r = lit 0 ∧ rpv r = lit 0))
  ∧ (∀ vs1 v vs2 a,
       perVariantAssumptions a !! id v = None → id v ∉ inheritedMembers →
       trafficSplitTotal (simulation (vs1 ++ v :: vs2) a)
       = trafficSplitTotal (simulation (vs1 ++ vs2) a))
  ∧ (∀ a, simulation [] a = mkSimulationOutput [] (lit 0)).
Proof.
  split; [|split].
  - intros vs a i v Hv Habs Hplain.
    split; [by apply assumptionsOf_absent|].
    intros Hmt Hp. eexists. split; [by apply simulation_lookup|].
    rewrite flagLeader_visitors, flagLeader_conversions, flagLeader_revenue,
      flagLeader_rpv.
    rewrite resultOf_rpv, resultOf_revenue, resultOf_conversions,
      resultOf_visitors.
    rewrite (assumptionsOf_absent a v Habs Hplain). unfold zeroAssumptions.
    cbn [trafficSplit convRate].
    rewrite zero_percent, (nmul_fin_0 _ Hmt), (nmul_0_fin (lit 0) eq_refl).
    rewrite (nmul_0_fin _ Hp), ngt_irrefl.
    repeat split. destruct (billingCycle v); [done|].
    by apply ndiv_0_lit.
  - intros vs1 v vs2 a Habs Hplain.
    rewrite !simulation_total, !foldl_app. simpl.
    by rewrite foldl_nadd_skip.
  - done.
Qed.


(** ** Annual normalisation *)

Lemma Qccompare_div_pos (b k : Qc) : 0 < k → (b / k ?= 0) = (b ?= 0).
Proof.
  intros Hk. pose proof (Qcinv_pos k Hk) as Hik.
  unfold Qcdiv.
  destruct (b ?= 0) eqn:Hb.
  - apply Qceq_alt in Hb as ->. apply Qceq_alt. by rewrite Qcmult_0_l.
  - apply Qclt_alt in Hb. apply Qclt_alt.
    assert (b * / k < 0 * / k) as H by (by apply Qcmult_lt_mono_pos_r).
    by rewrite Qcmult_0_l in H.
  - apply Qcgt_alt in Hb. apply Qcgt_alt.
    assert (0 * / k < b * / k) as H by (by apply Qcmult_lt_mono_pos_r).
    by rewrite Qcmult_0_l in H.
Qed.

Lemma twelve_pos : 0 < Q2Qc 12.
Proof. done. Qed.

(** Dividing a product by 12 or the second factor by 12 is the same, on
    the special values too. *)
Lemma ndiv_nmul_12 (c p : number) :
  ndiv (nmul c p) (lit 12) = nmul c (ndiv p (lit 12)).
Proof.
  unfold lit.
  destruct c as [| | |c], p as [| | |p]; simpl;
    repeat (destruct (decide _); simpl); try done;
    rewrite ?Qccompare_div_pos by apply twelve_pos;
    try (by destruct (_ ?= 0); simpl; repeat (destruct (decide _); simpl)).
  f_equal. unfold Qcdiv. by rewrite Qcmult_assoc.
Qed.

(** The same shape lemmas for the binary64 engine. *)

Lemma b64_mapVariants_results a total vs :
  (B64.mapVariants a total vs).2 = map (B64.resultOf a) vs.
Proof.
  revert total. induction vs as [|v vs IH]; intros total; simpl; [done|].
  specialize (IH (PrimFloat.add total
                    (B64.VA.trafficSplit (B64.assumptionsOf a v)))).
  destruct (B64.mapVariants a _ vs) as [t2 rs]; simpl in *. by rewrite IH.
Qed.

Lemma b64_markLeaders_map rs :
  B64.markLeaders rs
  = map (B64.flagLeader (B64.Math_max (map B64.VR.revenue rs))
           (B64.Math_max (map B64.VR.rpv rs))) rs.
Proof.
  unfold B64.markLeaders. case_bool_decide as Hlen; [done|].
  destruct rs; [done | simpl in Hlen; lia].
Qed.

Lemma b64_simulation_results vs a :
  B64.results (B64.simulation vs a)
  = B64.markLeaders (map (B64.resultOf a) vs).
Proof.
  unfold B64.simulation.
  pose proof (b64_mapVariants_results a PrimFloat.zero vs) as H.
  destruct (B64.mapVariants a _ vs) as [t rs]; simpl in *. by rewrite H.
Qed.

Lemma b64_simulation_lookup vs a i v :
  vs !! i = Some v →
  B64.results (B64.simulation vs a) !! i
  = Some (B64.flagLeader
            (B64.Math_max (map B64.VR.revenue (map (B64.resultOf a) vs)))
            (B64.Math_max (map B64.VR.rpv (map (B64.resultOf a) vs)))
            (B64.resultOf a v)).
Proof.
  intros Hv.
  rewrite b64_simulation_results, b64_markLeaders_map, !list_lookup_fmap.
  by rewrite Hv.
Qed.

(** In exact arithmetic an Annual plan and its Monthly twelfth get the
    same revenue, arpu and rpv. *)
Lemma annual_twelfth_exact vsA vsM a iA iM vA vM rA rM :
  vsA !! iA = Some vA → vsM !! iM = Some vM →
  trafficSplit (assumptionsOf a vA) = trafficSplit (assumptionsOf a vM) →
  convRate (assumptionsOf a vA) = convRate (assumptionsOf a vM) →
  billingCycle vA = Annual → billingCycle vM = Monthly →
  price vM = ndiv (price vA) (lit 12) →
  results (simulation vsA a) !! iA = Some rA →
  results (simulation vsM a) !! iM = Some rM →
  revenue rA = revenue rM ∧ arpu rA = arpu rM ∧ rpv rA = rpv rM.
Proof.
  intros HvA HvM Hsplit Hconv HcA HcM Hprice HrA HrM.
  rewrite (simulation_lookup _ _ _ _ HvA) in HrA. injection HrA as <-.
  rewrite (simulation_lookup _ _ _ _ HvM) in HrM. injection HrM as <-.
  rewrite !flagLeader_revenue, !flagLeader_arpu, !flagLeader_rpv.
  assert (visitors (resultOf a vA) = visitors (resultOf a vM)) as Hvis
    by (by rewrite !resultOf_visitors, Hsplit).
  assert (conversions (resultOf a vA) = conversions (resultOf a vM)) as Hcv
    by (by rewrite !resultOf_conversions, Hvis, Hconv).
  assert (revenue (resultOf a vA) = revenue (resultOf a vM)) as Hrev.
  { rewrite !resultOf_revenue, HcA, HcM, Hcv, Hprice.
    apply ndiv_nmul_12. }
  split; [done|]. split.
  - by rewrite !resultOf_arpu, HcA, HcM, Hcv, Hprice.
  - by rewrite !resultOf_rpv, Hvis, Hrev.
Qed.

Section AnnualNormalisation.

Import PrimFloat.

(** On binary64 numbers they get the same visitors, conversions and
    arpu: these are computed by the same operations on both sides. *)
Lemma annual_twelfth_b64 vsA vsM a iA iM vA vM rA rM :
  vsA !! iA = Some vA → vsM !! iM = Some vM →
  B64.VA.trafficSplit (B64.assumptionsOf a vA)
  = B64.VA.trafficSplit (B64.assumptionsOf a vM) →
  B64.VA.convRate (B64.assumptionsOf a vA)
  = B64.VA.convRate (B64.assumptionsOf a vM) →
  B64.billingCycle vA = Annual → B64.billingCycle vM = Monthly →
  B64.price vM = (B64.price vA / 12)%float →
  B64.results (B64.simulation vsA a) !! iA = Some rA →
  B64.results (B64.simulation vsM a) !! iM = Some rM →
  B64.VR.visitors rA = B64.VR.visitors rM
  ∧ B64.VR.conversions rA = B64.VR.conversions rM
  ∧ B64.VR.arpu rA = B64.VR.arpu rM.
Proof.
  intros HvA HvM Hsplit Hconv HcA HcM Hprice HrA HrM.
  rewrite (b64_simulation_lookup _ _ _ _ HvA) in HrA. injection HrA as <-.
  rewrite (b64_simulation_lookup _ _ _ _ HvM) in HrM. injection HrM as <-.
  unfold B64.flagLeader, B64.resultOf, B64.variantStep. cbn.
  rewrite Hsplit, Hconv, HcA, HcM, Hprice. done.
Qed.

(** C8.  Under the same traffic, traffic split and conversion rate, a
    variant priced [P] on an Annual cycle and a variant priced [P / 12] on
    a Monthly cycle get exactly the same visitors, conversions and arpu
    in the arithmetic of the program (binary64); their revenue and rpv
    are the same in exact arithmetic, where (c * P) / 12 = c * (P / 12).
    (In binary64 the two sides of that equation are rounded apart on
    some inputs, so revenue and rpv are not always the same there.) *)
Theorem C8_annual_equals_monthly_twelfth :
  (∀ vsA vsM a iA iM vA vM rA rM,
     vsA !! iA = Some vA → vsM !! iM = Some vM →
     B64.VA.trafficSplit (B64.assumptionsOf a vA)
     = B64.VA.trafficSplit (B64.assumptionsOf a vM) →
     B64.VA.convRate (B64.assumptionsOf a vA)
     = B64.VA.convRate (B64.assumptionsOf a vM) →
     B64.billingCycle vA = Annual → B64.billingCycle vM = Monthly →
     B64.price vM = (B64.price vA / 12)%float →
     B64.results (B64.simulation vsA a) !! iA = Some rA →
     B64.results (B64.simulation vsM a) !! iM = Some rM →
     B64.VR.visitors rA = B64.VR.visitors rM
     ∧ B64.VR.conversions rA = B64.VR.conversions rM
     ∧ B64.VR.arpu rA = B64.VR.arpu rM)
  ∧ (∀ vsA vsM a iA iM vA vM rA rM,
       vsA !! iA = Some vA → vsM !! iM = Some vM →
       trafficSplit (assumptionsOf a vA) = trafficSplit (assumptionsOf a vM) →
       convRate (assumptionsOf a vA) = convRate (assumptionsOf a vM) →
       billingCycle vA = Annual → billingCycle vM = Monthly →
       price vM = ndiv (price vA) (lit 12) →
       results (simulation vsA a) !! iA = Some rA →
       results (simulation vsM a) !! iM = Some rM →
       revenue rA = revenue rM ∧ arpu rA = arpu rM ∧ rpv rA = rpv rM).
Proof.
  split.
  - intros vsA vsM a iA iM vA vM rA rM. apply annual_twelfth_b64.
  - intros vsA vsM a iA iM vA vM rA rM. apply annual_twelfth_exact.
Qed.

(** On binary64 numbers the claim fails for the price 100 under the
    initial assumptions of the third variant (traffic 25000, split 33,
    conversion rate 2.8): the Monthly twelfth earns 1925, the Annual plan
    a value that [===] tells apart from it (1924.9999999999998), and the
    two rpv values differ as well. *)
Lemma C8_counterexample_binary64 :
  B64.price B64.monthlyHundredTwelfth
  = (B64.price B64.annualHundred / 12)%float
  ∧ ∃ rA rM,
      B64.results (B64.simulation [B64.annualHundred] B64.initialAssumptions)
        !! 0%nat = Some rA
      ∧ B64.results
          (B64.simulation [B64.monthlyHundredTwelfth] B64.initialAssumptions)
          !! 0%nat = Some rM
      ∧ B64.VR.revenue rM = 1925%float
      ∧ (B64.VR.revenue rA =? B64.VR.revenue rM)%float = false
      ∧ (B64.VR.revenue rA <? B64.VR.revenue rM)%float = true
      ∧ (B64.VR.rpv rA =? B64.VR.rpv rM)%float = false.
Proof.
  split; [reflexivity|]. eexists _, _.
  split; [by apply b64_simulation_lookup|].
  split; [by apply b64_simulation_lookup|].
  vm_compute. done.
Qed.

End AnnualNormalisation.

Lemma C8_annual_equals_monthly_twelfth_witness :
  (∃ rA rM,
     B64.results (B64.simulation [B64.annualHundred] B64.initialAssumptions)
       !! 0%nat = Some rA
     ∧ B64.results
         (B64.simulation [B64.monthlyHundredTwelfth] B64.initialAssumptions)
         !! 0%nat = Some rM
     ∧ B64.VR.visitors rA = B64.VR.visitors rM
     ∧ B64.VR.conversions rA = B64.VR.conversions rM
     ∧ B64.VR.arpu rA = B64.VR.arpu rM)
  ∧ ∃ rA rM,
      results (simulation initialVariants initialAssumptions) !! 2%nat
      = Some rA
      ∧ results (simulation [monthlyTwelfthPlan] initialAssumptions) !! 0%nat
        = Some rM
      ∧ revenue rA = revenue rM ∧ arpu rA = arpu rM ∧ rpv rA = rpv rM.
Proof.
  split.
  - eexists _, _.
    split; [apply (b64_simulation_lookup _ _ _ B64.annualHundred);
            reflexivity|].
    split; [apply (b64_simulation_lookup _ _ _ B64.monthlyHundredTwelfth);
            reflexivity|].
    apply (proj1 C8_annual_equals_monthly_twelfth
             [B64.annualHundred] [B64.monthlyHundredTwelfth]
             B64.initialAssumptions 0%nat 0%nat
             B64.annualHundred B64.monthlyHundredTwelfth);
      reflexivity.
  - eexists _, _.
    split; [apply (simulation_lookup _ _ _ annualPlan); reflexivity|].
    split; [apply (simulation_lookup _ _ _ monthlyTwelfthPlan); reflexivity|].
    apply (proj2 C8_annual_equals_monthly_twelfth
             initialVariants [monthlyTwelfthPlan] initialAssumptions
             2%nat 0%nat annualPlan monthlyTwelfthPlan);
      reflexivity.
Defined.

(** ** The insight generator *)

Lemma hasPercent_app (s t : string) :
  hasPercent (s +:+ t) = hasPercent s || hasPercent t.
Proof.
  induction s as [|c s IH]; simpl; [done|]. by rewrite IH, orb_assoc.
Qed.

Lemma find_leader_none (rs : list VariantResult) :
  List.find (λ r, isRPVLeader r) rs = None
  ↔ ¬ ∃ r, r ∈ rs ∧ isRPVLeader r = true.
Proof.
  split.
  - intros Hnone (r & Hr & Hflag).
    apply list_elem_of_In in Hr.
    pose proof (find_none _ _ Hnone r Hr) as H. simpl in H. congruence.
  - intros Hno. destruct (List.find _ rs) as [r|] eqn:Hfind; [|done].
    apply find_some in Hfind as [Hin Hflag]. destruct Hno.
    exists r. split; [by apply list_elem_of_In|done].
Qed.

Lemma find_control_none (rs : list VariantResult) :
  List.find (λ r, bool_decide (VR.variantId r = "v1")) rs = None
  ↔ ¬ ∃ r, r ∈ rs ∧ VR.variantId r = "v1".
Proof.
  split.
  - intros Hnone (r & Hr & Hid).
    apply list_elem_of_In in Hr.
    pose proof (find_none _ _ Hnone r Hr) as H. simpl in H.
    by apply bool_decide_eq_false in H.
  - intros Hno. destruct (List.find _ rs) as [r|] eqn:Hfind; [|done].
    apply find_some in Hfind as [Hin Hid]. destruct Hno.
    exists r. split; [by apply list_elem_of_In|].
    by apply bool_decide_eq_true in Hid.
Qed.

Lemma mapVariants_ignores_isControl flags a total vs :
  mapVariants a total (map (withControlFlags flags) vs)
  = mapVariants a total vs.
Proof.
  revert total. induction vs as [|v vs IH]; intros total; [done|].
  cbn [map mapVariants].
  change (variantStep a total (withControlFlags flags v))
    with (variantStep a total v).
  destruct (variantStep a total v) as [total1 r]. by rewrite IH.
Qed.

Lemma simulation_ignores_isControl flags vs a :
  simulation (map (withControlFlags flags) vs) a = simulation vs a.
Proof. unfold simulation. by rewrite mapVariants_ignores_isControl. Qed.

(** ** Rendering to one decimal place *)

Lemma string_app_cons (x : ascii) (a b : string) :
  String x a +:+ b = String x (a +:+ b).
Proof. done. Qed.

Lemma string_app_assoc (a b c : string) : (a +:+ b) +:+ c = a +:+ b +:+ c.
Proof.
  induction a as [|x a IH]; [done|]. rewrite !string_app_cons. by f_equal.
Qed.










Lemma string_app_empty_r (s : string) : s +:+ "" = s.
Proof.
  induction s as [|x s IH]; [done|]. rewrite string_app_cons. by f_equal.
Qed.




(** ** The sentences *)

Section InsightProperties.

Variable toStringLarge : Qc → string.

Local Abbreviation experimentInsight := (experimentInsight toStringLarge).
Local Abbreviation winnerText := (winnerText toStringLarge).
Local Abbreviation toFixed := (toFixed toStringLarge).

Lemma winnerText_hasPercent leader control :
  hasPercent (winnerText leader control) = true.
Proof.
  unfold winnerText. rewrite !hasPercent_app. simpl.
  by rewrite !orb_true_r.
Qed.

Lemma winnerText_not_awaiting leader control :
  winnerText leader control ≠ awaitingText.
Proof.
  intros H. pose proof (winnerText_hasPercent leader control) as Hp.
  by rewrite H in Hp.
Qed.

Lemma winnerText_not_controlBest leader control :
  winnerText leader control ≠ controlBestText.
Proof.
  intros H. pose proof (winnerText_hasPercent leader control) as Hp.
  by rewrite H in Hp.
Qed.

Lemma insight_cases sim :
  (findLeader sim = None ∨ findControl sim = None)
  ∧ experimentInsight sim = awaitingText
  ∨ ∃ leader control,
      findLeader sim = Some leader ∧ findControl sim = Some control
      ∧ (VR.variantId leader = "v1"
         ∧ experimentInsight sim = controlBestText
         ∨ VR.variantId leader ≠ "v1"
           ∧ experimentInsight sim = winnerText leader control).
Proof.
  unfold experimentInsight.
  destruct (findLeader sim) as [leader|]; [|left; split; [by left|done]].
  destruct (findControl sim) as [control|]; [|left; split; [by right|done]].
  right. exists leader, control. split; [done|]. split; [done|].
  case_bool_decide; [by left|by right].
Qed.

Lemma insight_awaiting_iff sim :
  experimentInsight sim = awaitingText
  ↔ findLeader sim = None ∨ findControl sim = None.
Proof.
  split.
  - intros Hins.
    destruct (insight_cases sim)
      as [[H _]|(l & c & _ & _ & [[_ H]|[_ H]])]; [done|..];
      rewrite H in Hins; [done|].
    by apply winnerText_not_awaiting in Hins.
  - intros Hnone.
    destruct (insight_cases sim) as [[_ H]|(l & c & Hl & Hc & _)];
      [done|]. destruct Hnone; congruence.
Qed.

(** C5.  The generator returns the awaiting-data placeholder exactly
    when the output holds no result flagged RPV leader or no result with
    id ["v1"].  On an output of the engine that is: no rpv is positive, or
    some rpv is NaN, or no variant has id ["v1"]; an empty variant list is
    one such case, and a list that has the control variant is another one
    as soon as no rpv is positive.  In every other case the generator
    returns a descriptive sentence: the control-remains-best sentence, or
    a sentence that opens with the name of a flagged result other than the
    control. *)
Theorem C5_placeholder_iff_not_located :
  (∀ sim, experimentInsight sim = awaitingText
          ↔ (¬ ∃ r, r ∈ results sim ∧ isRPVLeader r = true)
            ∨ (¬ ∃ r, r ∈ results sim ∧ VR.variantId r = "v1"))
  ∧ (∀ vs a, experimentInsight (simulation vs a) = awaitingText
             ↔ (∀ r, r ∈ results (simulation vs a) →
                     ngt (rpv r) (lit 0) = false)
               ∨ (∃ r, r ∈ results (simulation vs a) ∧ rpv r = NaN)
               ∨ (∀ v, v ∈ vs → id v ≠ "v1"))
  ∧ (∀ a, experimentInsight (simulation [] a) = awaitingText)
  ∧ (∀ sim, experimentInsight sim ≠ awaitingText →
       experimentInsight sim = controlBestText
       ∨ ∃ leader rest,
           leader ∈ results sim ∧ isRPVLeader leader = true
           ∧ VR.variantId leader ≠ "v1"
           ∧ experimentInsight sim
             = VR.name leader +:+ " is the winner with a " +:+ rest).
Proof.
  split; [|split; [|split]].
  - intros sim. rewrite <-find_leader_none, <-find_control_none.
    apply insight_awaiting_iff.
  - intros vs a.
    rewrite insight_awaiting_iff.
    unfold findLeader, findControl.
    rewrite find_leader_none, find_control_none.
    rewrite rpv_leader_exists_iff, control_result_iff.
    split.
    + intros [Hno|Hno].
      * destruct (decide (Exists (λ r, rpv r = NaN)
                            (results (simulation vs a)))) as [Hnan|Hnan].
        { right; left. apply Exists_exists in Hnan. exact Hnan. }
        left. intros r Hr.
        destruct (ngt (rpv r) (lit 0)) eqn:Hpos; [|done].
        destruct Hno. split; [|by exists r].
        intros r0 Hr0 H0. apply Hnan, Exists_exists. by exists r0.
      * right; right. intros v Hv Hid. apply Hno. by exists v.
    + intros [Hnone|[(r & Hr & Hnan)|Hnone]].
      * left. intros [_ (r & Hr & Hpos)]. by rewrite (Hnone r Hr) in Hpos.
      * left. intros [Hall _]. by apply (Hall r Hr).
      * right. intros (v & Hv & Hid). by apply (Hnone v Hv).
  - done.
  - intros sim Hne.
    destruct (insight_cases sim)
      as [[_ H]|(l & c & Hl & _ & [[_ H]|[Hid H]])]; [done|by left|].
    right. apply find_some in Hl as [Hin Hflag].
    exists l. eexists. split; [by apply list_elem_of_In|].
    split; [done|]. split; [done|].
    rewrite H. unfold winnerText. cbv zeta.
    rewrite !string_app_assoc. reflexivity.
Qed.

Lemma insight_of_control_leader sim leader control :
  findLeader sim = Some leader → findControl sim = Some control →
  VR.variantId leader = "v1" →
  experimentInsight sim = controlBestText.
Proof.
  intros Hl Hc Hid. unfold experimentInsight.
  rewrite Hl, Hc. by rewrite bool_decide_eq_true_2.
Qed.

(** C6.  Whenever an RPV leader and a control result are found and the
    leader is the control variant, the generator returns the fixed
    control-remains-best sentence, whatever the other results hold. *)
Theorem C6_control_remains_best sim leader control :
  findLeader sim = Some leader → findControl sim = Some control →
  VR.variantId leader = "v1" →
  experimentInsight sim = controlBestText.
Proof. apply insight_of_control_leader. Qed.

(** C10.  The control result is identified by the fixed id ["v1"] alone:
    the placeholder is returned exactly when no result is flagged RPV
    leader or no result has id ["v1"]; the control-remains-best sentence is
    returned exactly when the RPV-leader result has id ["v1"]; and the
    [isControl] flags of the variants do not reach the insight string. *)
Theorem C10_control_is_id_v1 :
  (∀ sim, experimentInsight sim = awaitingText
          ↔ (¬ ∃ r, r ∈ results sim ∧ isRPVLeader r = true)
            ∨ (¬ ∃ r, r ∈ results sim ∧ VR.variantId r = "v1"))
  ∧ (∀ sim, experimentInsight sim = controlBestText
            ↔ ∃ leader, findLeader sim = Some leader
                        ∧ VR.variantId leader = "v1")
  ∧ (∀ flags vs a,
       experimentInsight (simulation (map (withControlFlags flags) vs) a)
       = experimentInsight (simulation vs a)).
Proof.
  split; [|split].
  - intros sim.
    rewrite <-find_leader_none, <-find_control_none.
    apply insight_awaiting_iff.
  - intros sim. split.
    + intros Hins.
      destruct (insight_cases sim)
        as [[_ H]|(l & c & Hl & _ & [[Hid _]|[_ H]])].
      * rewrite H in Hins. done.
      * by exists l.
      * rewrite H in Hins. by apply winnerText_not_controlBest in Hins.
    + intros (leader & Hl & Hid).
      destruct (findControl sim) as [control|] eqn:Hc.
      * by apply (insight_of_control_leader sim leader control).
      * apply find_control_none in Hc. destruct Hc. exists leader.
        split; [|done]. apply find_some in Hl as [Hin _].
        by apply list_elem_of_In.
  - intros flags vs a. by rewrite simulation_ignores_isControl.
Qed.


End InsightProperties.

(** ** The sentence on binary64 numbers *)




Section Binary64Sentence.

Import PrimFloat.

Variable toStringLarge : Qc → string.


End Binary64Sentence.

(** ** The claims on concrete inputs *)

Lemma C5_placeholder_iff_not_located_witness :
  experimentInsight plainLarge (simulation initialVariants initialAssumptions)
  ≠ awaitingText
  ∧ (experimentInsight plainLarge
       (simulation initialVariants initialAssumptions) = controlBestText
     ∨ ∃ leader rest,
         leader ∈ results (simulation initialVariants initialAssumptions)
         ∧ isRPVLeader leader = true
         ∧ VR.variantId leader ≠ "v1"
         ∧ experimentInsight plainLarge
             (simulation initialVariants initialAssumptions)
           = VR.name leader +:+ " is the winner with a " +:+ rest).
Proof.
  assert (experimentInsight plainLarge
            (simulation initialVariants initialAssumptions) ≠ awaitingText)
    as Hne by (vm_compute; discriminate).
  split; [exact Hne|].
  exact (proj2 (proj2 (proj2 (C5_placeholder_iff_not_located plainLarge)))
           _ Hne).
Defined.

(** The equivalence that the claim carries, placeholder exactly when the
    variant set is empty or lacks a control variant, fails on the three
    initial variants when every traffic split is set to 0: the list is
    not empty, its first variant has id ["v1"] and the control flag, and
    the generator returns the placeholder. *)
Lemma C5_counterexample_control_present :
  ¬ (experimentInsight plainLarge
       (simulation initialVariants noTrafficAssumptions) = awaitingText
     ↔ initialVariants = []
       ∨ ¬ ∃ v, v ∈ initialVariants ∧ (id v = "v1" ∨ isControl v = true)).
Proof.
  intros [Hclaim _].
  destruct Hclaim as [Hempty|Hnone]; [by vm_compute|done|].
  apply Hnone. eexists. split; [apply elem_of_cons; by left|by left].
Qed.

Lemma C6_control_remains_best_witness :
  ∃ leader control,
    findLeader (simulation initialVariants controlOnlyAssumptions)
    = Some leader
    ∧ findControl (simulation initialVariants controlOnlyAssumptions)
      = Some control
    ∧ VR.variantId leader = "v1"
    ∧ experimentInsight plainLarge
        (simulation initialVariants controlOnlyAssumptions)
      = controlBestText.
Proof.
  eexists _, _.
  split; [vm_compute; reflexivity|].
  split; [vm_compute; reflexivity|].
  split; [reflexivity|].
  eapply (C6_control_remains_best plainLarge).
  - vm_compute; reflexivity.
  - vm_compute; reflexivity.
  - reflexivity.
Defined.


(** Where rounding decides.  Two variants at the same price and the same
    conversion rate, with traffic splits of 10 and 90: in exact
    arithmetic their rpv values are equal, both are flagged, and the
    control, listed first, is the leader.  On binary64 numbers the second
    rpv comes out one unit in the last place above the first: the second
    variant alone is flagged, the two conversion rates round to the same
    number, and the program prints the winner sentence with a lift of
    0.0% and no clause. *)
Remark rounding_decides_the_sentence :
  B64.experimentInsight plainLarge
    (B64.simulation B64.samePlanVariants B64.unevenSplitAssumptions)
  = "Test Variant 1 is the winner with a 0.0% efficiency lift over Control. "
  ∧ experimentInsight plainLarge
      (simulation tiedVariants unevenSplitAssumptions)
    = controlBestText.
Proof. split; vm_compute; reflexivity. Qed.

Lemma C10_control_is_id_v1_witness :
  (∃ leader,
     findLeader (simulation initialVariants controlOnlyAssumptions)
     = Some leader ∧ VR.variantId leader = "v1")
  ∧ experimentInsight plainLarge
      (simulation initialVariants controlOnlyAssumptions)
    = controlBestText.
Proof.
  assert (∃ leader,
     findLeader (simulation initialVariants controlOnlyAssumptions)
     = Some leader ∧ VR.variantId leader = "v1") as Hex.
  { eexists. split; [vm_compute; reflexivity|reflexivity]. }
  split; [exact Hex|].
  apply (proj1 (proj2 (C10_control_is_id_v1 plainLarge))). exact Hex.
Defined.

(** ** Remarks on the specification's glosses *)

(** On a variant with finitely many, positively many conversions and a
    finite price the price-derived arpu coincides, in exact arithmetic,
    with revenue / conversions; the two part only when there is no
    conversion. *)
Remark arpu_is_revenue_per_conversion vs a i v r c p :
  vs !! i = Some v → results (simulation vs a) !! i = Some r →
  conversions r = Fin c → 0 < c → price v = Fin p →
  arpu r = ndiv (revenue r) (conversions r).
Proof.
  intros Hv Hr Hc Hpos Hp.
  rewrite (simulation_lookup vs a i v Hv) in Hr. injection Hr as <-.
  rewrite flagLeader_arpu, flagLeader_revenue, flagLeader_conversions in *.
  rewrite resultOf_arpu, resultOf_revenue, Hc, Hp.
  assert (c ≠ 0) as Hne by (intros ->; by apply (Qclt_not_eq _ _ Hpos)).
  assert (ngt (Fin c) (lit 0) = true) as -> by (by apply bool_decide_eq_true).
  unfold lit.
  destruct (billingCycle v); simpl;
    repeat (destruct (decide _); simpl); try done; f_equal.
  - unfold Qcdiv. rewrite (Qcmult_comm c p), <-Qcmult_assoc.
    by rewrite Qcmult_inv_r, Qcmult_1_r.
  - unfold Qcdiv.
    rewrite (Qcmult_comm c p), <-!Qcmult_assoc, (Qcmult_comm c).
    by rewrite <-Qcmult_assoc, Qcmult_inv_l, Qcmult_1_r.
Qed.

(** * Further properties of the code *)

(** ** What the engine reads *)

Lemma variantStep_frame a1 a2 total v :
  monthlyTraffic a1 = monthlyTraffic a2 →
  trafficSplit (assumptionsOf a1 v) = trafficSplit (assumptionsOf a2 v) →
  convRate (assumptionsOf a1 v) = convRate (assumptionsOf a2 v) →
  variantStep a1 total v = variantStep a2 total v.
Proof. intros Ht Hs Hc. unfold variantStep. by rewrite Ht, Hs, Hc. Qed.

Lemma mapVariants_frame a1 a2 total vs :
  monthlyTraffic a1 = monthlyTraffic a2 →
  (∀ v, v ∈ vs →
     trafficSplit (assumptionsOf a1 v) = trafficSplit (assumptionsOf a2 v)
     ∧ convRate (assumptionsOf a1 v) = convRate (assumptionsOf a2 v)) →
  mapVariants a1 total vs = mapVariants a2 total vs.
Proof.
  intros Ht. revert total.
  induction vs as [|v vs IH]; intros total Hvs; [done|].
  cbn [mapVariants].
  destruct (Hvs v) as [Hs Hc]; [apply elem_of_cons; by left|].
  rewrite (variantStep_frame a1 a2 total v Ht Hs Hc).
  destruct (variantStep a2 total v) as [total1 r].
  rewrite IH; [done|]. intros w Hw. apply Hvs, elem_of_cons. by right.
Qed.

Lemma simulation_frame vs a1 a2 :
  monthlyTraffic a1 = monthlyTraffic a2 →
  (∀ v, v ∈ vs →
     trafficSplit (assumptionsOf a1 v) = trafficSplit (assumptionsOf a2 v)
     ∧ convRate (assumptionsOf a1 v) = convRate (assumptionsOf a2 v)) →
  simulation vs a1 = simulation vs a2.
Proof.
  intros Ht Hvs. unfold simulation.
  by rewrite (mapVariants_frame a1 a2 (lit 0) vs Ht Hvs).
Qed.

(** X1.  The engine reads the monthly traffic and, for each variant of the
    list, the traffic split and the conversion rate found under its id:
    two assumption records that agree on these give the same output.
    Churn rates, the [variantId] stored in an entry and entries under
    other ids never reach the output. *)
Theorem X1_simulation_frame vs a1 a2 :
  monthlyTraffic a1 = monthlyTraffic a2 →
  (∀ v, v ∈ vs →
     trafficSplit (assumptionsOf a1 v) = trafficSplit (assumptionsOf a2 v)
     ∧ convRate (assumptionsOf a1 v) = convRate (assumptionsOf a2 v)) →
  simulation vs a1 = simulation vs a2.
Proof. apply simulation_frame. Qed.

Lemma X1_simulation_frame_witness :
  simulation initialVariants initialAssumptions
  = simulation initialVariants initialAssumptionsVariant.
Proof.
  apply X1_simulation_frame; [reflexivity|].
  apply Forall_forall. repeat constructor.
Defined.

(** ** Editing the assumptions *)

Lemma updateAssumption_Some vId e prev next :
  updateAssumption vId e prev = Some next →
  ∃ va, perVariantAssumptions prev !! vId = Some va
        ∧ next = mkGlobalAssumptions (monthlyTraffic prev)
                   (<[vId := applyAssumptionEdit e va]>
                      (perVariantAssumptions prev)).
Proof.
  unfold updateAssumption.
  destruct (perVariantAssumptions prev !! vId) as [va|]; [|done].
  intros [= <-]. by exists va.
Qed.

Lemma assumptionsOf_other vId e prev next v :
  updateAssumption vId e prev = Some next → id v ≠ vId →
  assumptionsOf next v = assumptionsOf prev v.
Proof.
  intros (va & _ & ->)%updateAssumption_Some Hne.
  unfold assumptionsOf. simpl. by rewrite lookup_insert_ne.
Qed.

Lemma assumptionsOf_edited vId e prev next v :
  updateAssumption vId e prev = Some next → id v = vId →
  assumptionsOf next v = applyAssumptionEdit e (assumptionsOf prev v).
Proof.
  intros (va & Hva & ->)%updateAssumption_Some <-.
  unfold assumptionsOf. simpl. by rewrite lookup_insert_eq, Hva.
Qed.

(** X2.  An edit of the assumptions of a variant that has an entry reads
    back: the entry then holds the new value in the edited field and the
    old values in the other fields, the entries of all other ids and the
    monthly traffic are untouched, and no key is added or removed. *)
Theorem X2_updateAssumption_reads_back vId e prev next :
  updateAssumption vId e prev = Some next →
  monthlyTraffic next = monthlyTraffic prev
  ∧ dom (perVariantAssumptions next) = dom (perVariantAssumptions prev)
  ∧ (∀ k, k ≠ vId →
          perVariantAssumptions next !! k = perVariantAssumptions prev !! k)
  ∧ ∃ old new,
      perVariantAssumptions prev !! vId = Some old
      ∧ perVariantAssumptions next !! vId = Some new
      ∧ VA.variantId new = VA.variantId old
      ∧ match e with
        | EditTrafficSplit x =>
            trafficSplit new = x ∧ convRate new = convRate old
            ∧ churnRate new = churnRate old
        | EditConvRate x =>
            convRate new = x ∧ trafficSplit new = trafficSplit old
            ∧ churnRate new = churnRate old
        | EditChurnRate x =>
            churnRate new = x ∧ trafficSplit new = trafficSplit old
            ∧ convRate new = convRate old
        end.
Proof.
  intros (va & Hva & ->)%updateAssumption_Some. simpl.
  split; [done|]. split.
  { by apply dom_insert_lookup_L. }
  split; [intros k Hk; by rewrite lookup_insert_ne|].
  exists va, (applyAssumptionEdit e va).
  rewrite lookup_insert_eq. by destruct e.
Qed.

Lemma X2_updateAssumption_reads_back_witness :
  ∃ next,
    updateAssumption "v2" (EditTrafficSplit (lit 40)) initialAssumptions
    = Some next
    ∧ trafficSplit <$> perVariantAssumptions next !! "v2" = Some (lit 40)
    ∧ perVariantAssumptions next !! "v1"
      = perVariantAssumptions initialAssumptions !! "v1".
Proof.
  eexists. split; [reflexivity|].
  destruct (X2_updateAssumption_reads_back "v2" (EditTrafficSplit (lit 40))
              initialAssumptions _ eq_refl)
    as (_ & _ & Hother & old & new & _ & Hnew & _ & Hsplit & _).
  split; [by rewrite Hnew; simpl; rewrite Hsplit|by apply Hother].
Defined.

(** X3.  An edit of the churn rate of a variant id that has an entry
    never changes the output of the engine, whatever the variants are.
    (For an id without entry the handler stores an object that has the
    churn rate as its only field; that state is outside the statement.) *)
Theorem X3_churn_edit_is_invisible vId x prev next vs :
  updateAssumption vId (EditChurnRate x) prev = Some next →
  simulation vs next = simulation vs prev.
Proof.
  intros Hupd. apply simulation_frame.
  - by destruct (updateAssumption_Some _ _ _ _ Hupd) as (va & _ & ->).
  - intros v _. destruct (decide (id v = vId)) as [Heq|Hne].
    + by rewrite (assumptionsOf_edited _ _ _ _ _ Hupd Heq).
    + by rewrite (assumptionsOf_other _ _ _ _ _ Hupd Hne).
Qed.

Lemma X3_churn_edit_is_invisible_witness :
  ∃ next,
    updateAssumption "v1" (EditChurnRate (lit 90)) initialAssumptions
    = Some next
    ∧ simulation initialVariants next
      = simulation initialVariants initialAssumptions.
Proof.
  eexists. split; [reflexivity|].
  by apply (X3_churn_edit_is_invisible "v1" (lit 90)).
Defined.

Lemma resultOf_same_assumptions a1 a2 v :
  monthlyTraffic a1 = monthlyTraffic a2 →
  assumptionsOf a1 v = assumptionsOf a2 v →
  resultOf a1 v = resultOf a2 v.
Proof.
  intros Ht Ha. unfold resultOf.
  by rewrite (variantStep_frame a1 a2 (lit 0) v Ht) by (by rewrite Ha).
Qed.

Lemma metricsOf_flagLeader m1 m2 r :
  metricsOf (flagLeader m1 m2 r) = metricsOf r.
Proof. done. Qed.

(** X4.  Editing the traffic split or the conversion rate of one variant
    leaves the visitors, conversions, revenue, arpu and rpv of every
    variant with another id as they were (only the leader flags and the
    traffic-split total can move). *)
Theorem X4_assumption_edit_is_local vId e prev next vs i v :
  updateAssumption vId e prev = Some next →
  vs !! i = Some v → id v ≠ vId →
  ∃ r r',
    results (simulation vs prev) !! i = Some r
    ∧ results (simulation vs next) !! i = Some r'
    ∧ VR.variantId r' = VR.variantId r
    ∧ metricsOf r' = metricsOf r.
Proof.
  intros Hupd Hv Hne. eexists _, _.
  split; [by apply simulation_lookup|].
  split; [by apply simulation_lookup|].
  rewrite !metricsOf_flagLeader. split; [done|].
  rewrite (resultOf_same_assumptions next prev v); [done| |].
  - by destruct (updateAssumption_Some _ _ _ _ Hupd) as (va & _ & ->).
  - by apply (assumptionsOf_other vId e).
Qed.

Lemma X4_assumption_edit_is_local_witness :
  ∃ next r r',
    updateAssumption "v2" (EditTrafficSplit (lit 40)) initialAssumptions
    = Some next
    ∧ results (simulation initialVariants initialAssumptions) !! 0%nat
      = Some r
    ∧ results (simulation initialVariants next) !! 0%nat = Some r'
    ∧ metricsOf r' = metricsOf r
    ∧ neq (trafficSplitTotal (simulation initialVariants next)) (lit 100)
      = false.
Proof.
  eexists.
  destruct (X4_assumption_edit_is_local "v2" (EditTrafficSplit (lit 40))
              initialAssumptions _ initialVariants 0%nat _
              eq_refl eq_refl ltac:(discriminate))
    as (r & r' & Hr & Hr' & _ & Hm).
  exists r, r'. split; [reflexivity|]. split; [exact Hr|].
  split; [exact Hr'|]. split; [exact Hm|]. vm_compute; reflexivity.
Defined.

(** ** Editing the variants *)

Lemma updateVariant_lookup vid e prev i v :
  prev !! i = Some v →
  updateVariant vid e prev !! i
  = Some (if bool_decide (id v = vid) then applyVariantEdit e v else v).
Proof. intros Hv. unfold updateVariant. by rewrite list_lookup_fmap, Hv. Qed.

Lemma applyVariantEdit_id e v :
  keepsId e = true → id (applyVariantEdit e v) = id v.
Proof. by destruct e. Qed.

Lemma updateVariant_ids vid e prev :
  keepsId e = true → map id (updateVariant vid e prev) = map id prev.
Proof.
  intros He. unfold updateVariant. rewrite map_map. apply map_ext.
  intros v. case_bool_decide; [by apply applyVariantEdit_id|done].
Qed.

(** X5.  [updateVariant] keeps the number and the order of the variants;
    an edit of any field but the id keeps every id; an edit addressed to
    an id that no variant has changes nothing; every variant that carries
    the id is edited, not only the first; and repeating an edit that keeps
    the id changes nothing more. *)
Theorem X5_updateVariant_shape vid e prev :
  length (updateVariant vid e prev) = length prev
  ∧ (keepsId e = true → map id (updateVariant vid e prev) = map id prev)
  ∧ ((∀ v, v ∈ prev → id v ≠ vid) → updateVariant vid e prev = prev)
  ∧ (∀ i v, prev !! i = Some v → id v = vid →
            updateVariant vid e prev !! i = Some (applyVariantEdit e v))
  ∧ (keepsId e = true →
     updateVariant vid e (updateVariant vid e prev)
     = updateVariant vid e prev).
Proof.
  split; [by unfold updateVariant; rewrite length_map|].
  split; [by apply updateVariant_ids|]. split; [|split].
  - intros Hno. unfold updateVariant. rewrite <-(map_id prev) at 2.
    apply map_ext_in. intros v Hv%list_elem_of_In.
    by rewrite bool_decide_eq_false_2 by (by apply Hno).
  - intros i v Hv Hid. rewrite (updateVariant_lookup _ _ _ _ _ Hv).
    by rewrite bool_decide_eq_true_2.
  - intros He. unfold updateVariant. rewrite map_map. apply map_ext.
    intros v. cbn beta. destruct (decide (id v = vid)) as [Hid|Hid].
    + rewrite (bool_decide_eq_true_2 (id v = vid)) by done.
      rewrite bool_decide_eq_true_2 by (by rewrite applyVariantEdit_id).
      by destruct e.
    + rewrite (bool_decide_eq_false_2 (id v = vid)) by done.
      by rewrite bool_decide_eq_false_2.
Qed.

Lemma X5_updateVariant_shape_witness :
  map id (updateVariant "v2" (EditPrice (lit 299)) initialVariants)
  = map id initialVariants
  ∧ updateVariant "v7" (EditPrice (lit 299)) initialVariants
    = initialVariants
  ∧ price <$> updateVariant "v2" (EditPrice (lit 299)) initialVariants
              !! 1%nat
    = Some (lit 299).
Proof.
  destruct (X5_updateVariant_shape "v2" (EditPrice (lit 299))
              initialVariants) as (_ & Hids & _ & Hhit & _).
  destruct (X5_updateVariant_shape "v7" (EditPrice (lit 299))
              initialVariants) as (_ & _ & Hmiss & _).
  split; [by apply Hids|]. split.
  - apply Hmiss. apply Forall_forall. repeat constructor; discriminate.
  - by rewrite (Hhit 1%nat _ eq_refl eq_refl).
Defined.

(** X6.  Edits of different variants commute, and of two successive
    edits of the same field of the same variant only the last one counts
    (for edits that keep the id). *)
Theorem X6_updateVariant_composes vid1 e1 vid2 e2 prev :
  keepsId e1 = true → keepsId e2 = true →
  (vid1 ≠ vid2 →
   updateVariant vid1 e1 (updateVariant vid2 e2 prev)
   = updateVariant vid2 e2 (updateVariant vid1 e1 prev))
  ∧ (vid1 = vid2 → sameField e1 e2 = true →
     updateVariant vid2 e2 (updateVariant vid1 e1 prev)
     = updateVariant vid2 e2 prev).
Proof.
  intros He1 He2. split.
  - intros Hne. unfold updateVariant. rewrite !map_map. apply map_ext.
    intros v. cbn beta.
    destruct (decide (id v = vid1)) as [H1|H1],
             (decide (id v = vid2)) as [H2|H2]; [congruence|..].
    + rewrite (bool_decide_eq_false_2 (id v = vid2)) by done.
      rewrite (bool_decide_eq_true_2 (id v = vid1)) by done.
      by rewrite bool_decide_eq_false_2 by (by rewrite applyVariantEdit_id).
    + rewrite (bool_decide_eq_true_2 (id v = vid2)) by done.
      rewrite (bool_decide_eq_false_2 (id v = vid1)) by done.
      rewrite bool_decide_eq_false_2 by (by rewrite applyVariantEdit_id).
      by rewrite bool_decide_eq_true_2.
    + rewrite (bool_decide_eq_false_2 (id v = vid2)) by done.
      rewrite (bool_decide_eq_false_2 (id v = vid1)) by done.
      by rewrite bool_decide_eq_false_2.
  - intros <- Hsame. unfold updateVariant. rewrite map_map. apply map_ext.
    intros v. cbn beta. destruct (decide (id v = vid1)) as [Hid|Hid].
    + rewrite (bool_decide_eq_true_2 (id v = vid1)) by done.
      rewrite bool_decide_eq_true_2 by (by rewrite applyVariantEdit_id).
      by destruct e1, e2.
    + rewrite (bool_decide_eq_false_2 (id v = vid1)) by done.
      by rewrite bool_decide_eq_false_2.
Qed.

Lemma X6_updateVariant_composes_witness :
  updateVariant "v2" (EditPrice (lit 299))
    (updateVariant "v3" (EditBillingCycle Monthly) initialVariants)
  = updateVariant "v3" (EditBillingCycle Monthly)
      (updateVariant "v2" (EditPrice (lit 299)) initialVariants)
  ∧ updateVariant "v2" (EditPrice (lit 299))
      (updateVariant "v2" (EditPrice (lit 199)) initialVariants)
    = updateVariant "v2" (EditPrice (lit 299)) initialVariants.
Proof.
  split.
  - apply (proj1 (X6_updateVariant_composes "v2" (EditPrice (lit 299))
                    "v3" (EditBillingCycle Monthly) initialVariants
                    eq_refl eq_refl)).
    discriminate.
  - apply (proj2 (X6_updateVariant_composes "v2" (EditPrice (lit 199))
                    "v2" (EditPrice (lit 299)) initialVariants
                    eq_refl eq_refl)); reflexivity.
Defined.

Lemma foldl_nadd_map (g : PricingVariant → PricingVariant) a total vs :
  (∀ v, splitOf a (g v) = splitOf a v) →
  foldl (λ t v, nadd t (splitOf a v)) total (map g vs)
  = foldl (λ t v, nadd t (splitOf a v)) total vs.
Proof.
  intros Hg. revert total.
  induction vs as [|v vs IH]; intros total; simpl; [done|].
  by rewrite Hg, IH.
Qed.

Lemma splitOf_same_id a v w : id v = id w → splitOf a v = splitOf a w.
Proof. intros Hid. unfold splitOf, assumptionsOf. by rewrite Hid. Qed.

Lemma edited_id vid e v :
  keepsId e = true →
  id (if bool_decide (id v = vid) then applyVariantEdit e v else v) = id v.
Proof. intros He. case_bool_decide; [by apply applyVariantEdit_id|done]. Qed.

Lemma visitors_same_id a v w :
  id v = id w → visitors (resultOf a v) = visitors (resultOf a w).
Proof.
  intros Hid. rewrite !resultOf_visitors. unfold assumptionsOf.
  by rewrite Hid.
Qed.

Lemma conversions_same_id a v w :
  id v = id w → conversions (resultOf a v) = conversions (resultOf a w).
Proof.
  intros Hid. rewrite !resultOf_conversions, (visitors_same_id a v w Hid).
  unfold assumptionsOf. by rewrite Hid.
Qed.

Lemma simulation_total_edit vid e vs a :
  keepsId e = true →
  trafficSplitTotal (simulation (updateVariant vid e vs) a)
  = trafficSplitTotal (simulation vs a).
Proof.
  intros He. rewrite !simulation_total. unfold updateVariant.
  apply foldl_nadd_map. intros v. apply splitOf_same_id.
  by apply edited_id.
Qed.

Lemma presentational_keepsId e : isPresentational e = true → keepsId e = true.
Proof. by destruct e. Qed.

Lemma numbersOf_presentational vid e a m1 m2 v :
  isPresentational e = true →
  numbersOf (flagLeader m1 m2
               (resultOf a (if bool_decide (id v = vid)
                            then applyVariantEdit e v else v)))
  = numbersOf (flagLeader m1 m2 (resultOf a v)).
Proof. intros He. case_bool_decide; [|done]. by destruct e. Qed.

Lemma revenue_presentational vid e a v :
  isPresentational e = true →
  revenue (resultOf a (if bool_decide (id v = vid)
                       then applyVariantEdit e v else v))
  = revenue (resultOf a v)
  ∧ rpv (resultOf a (if bool_decide (id v = vid)
                     then applyVariantEdit e v else v))
    = rpv (resultOf a v).
Proof. intros He. case_bool_decide; [|done]. by destruct e. Qed.

Lemma mapVariants_map_ext (g : PricingVariant → PricingVariant) a total vs :
  (∀ t v, variantStep a t (g v) = variantStep a t v) →
  mapVariants a total (map g vs) = mapVariants a total vs.
Proof.
  intros Hg. revert total.
  induction vs as [|v vs IH]; intros total; [done|].
  cbn [map mapVariants]. rewrite Hg.
  destruct (variantStep a total v) as [t1 r]. by rewrite IH.
Qed.

(** X7.  Renaming a variant, editing its notes or toggling its control
    flag changes no number of the output: every result keeps its id, its
    five figures and its two leader flags, and the traffic-split total is
    the same.  For the notes and the control flag the whole output is the
    same. *)
Theorem X7_presentational_edit_keeps_numbers vid e vs a :
  isPresentational e = true →
  trafficSplitTotal (simulation (updateVariant vid e vs) a)
  = trafficSplitTotal (simulation vs a)
  ∧ map numbersOf (results (simulation (updateVariant vid e vs) a))
    = map numbersOf (results (simulation vs a))
  ∧ ((∀ s, e ≠ EditName s) →
     simulation (updateVariant vid e vs) a = simulation vs a).
Proof.
  intros He. split; [|split].
  - by apply simulation_total_edit, presentational_keepsId.
  - rewrite !simulation_results, !markLeaders_map. unfold updateVariant.
    rewrite !map_map.
    assert (map (λ v, revenue (resultOf a
                   (if bool_decide (id v = vid) then applyVariantEdit e v
                    else v))) vs
            = map (λ v, revenue (resultOf a v)) vs) as ->
      by (apply map_ext; intros v; by apply revenue_presentational).
    assert (map (λ v, rpv (resultOf a
                   (if bool_decide (id v = vid) then applyVariantEdit e v
                    else v))) vs
            = map (λ v, rpv (resultOf a v)) vs) as ->
      by (apply map_ext; intros v; by apply revenue_presentational).
    apply map_ext. intros v. by apply numbersOf_presentational.
  - intros Hname. unfold simulation, updateVariant.
    rewrite mapVariants_map_ext; [done|]. intros total v.
    case_bool_decide; [|done]. destruct e; try done. by destruct (Hname s).
Qed.

Lemma X7_presentational_edit_keeps_numbers_witness :
  map numbersOf
    (results (simulation
                (updateVariant "v2" (EditName "Cheaper") initialVariants)
                initialAssumptions))
  = map numbersOf (results (simulation initialVariants initialAssumptions))
  ∧ simulation (updateVariant "v1" (EditIsControl false) initialVariants)
      initialAssumptions
    = simulation initialVariants initialAssumptions.
Proof.
  split.
  - by apply (X7_presentational_edit_keeps_numbers "v2" (EditName "Cheaper")).
  - by apply (X7_presentational_edit_keeps_numbers "v1"
                (EditIsControl false)).
Defined.

(** X8.  An edit of a variant that keeps its id (its price or billing
    cycle in particular) changes neither the visitors nor the conversions
    of any result nor the traffic-split total, and it leaves the five
    figures and the name of every variant with another id as they were. *)
Theorem X8_variant_edit_is_local vid e vs a :
  keepsId e = true →
  trafficSplitTotal (simulation (updateVariant vid e vs) a)
  = trafficSplitTotal (simulation vs a)
  ∧ map visitors (results (simulation (updateVariant vid e vs) a))
    = map visitors (results (simulation vs a))
  ∧ map conversions (results (simulation (updateVariant vid e vs) a))
    = map conversions (results (simulation vs a))
  ∧ (∀ i v, vs !! i = Some v → id v ≠ vid →
       ∃ r r',
         results (simulation vs a) !! i = Some r
         ∧ results (simulation (updateVariant vid e vs) a) !! i = Some r'
         ∧ VR.name r' = VR.name r
         ∧ metricsOf r' = metricsOf r).
Proof.
  intros He. split; [by apply simulation_total_edit|].
  split; [|split].
  - rewrite !simulation_results, !markLeaders_map. unfold updateVariant.
    rewrite !map_map. apply map_ext. intros v. cbn beta.
    rewrite !flagLeader_visitors. apply visitors_same_id.
    by apply edited_id.
  - rewrite !simulation_results, !markLeaders_map. unfold updateVariant.
    rewrite !map_map. apply map_ext. intros v. cbn beta.
    rewrite !flagLeader_conversions. apply conversions_same_id.
    by apply edited_id.
  - intros i v Hv Hne. eexists _, _.
    split; [by apply simulation_lookup|].
    split; [apply simulation_lookup; by apply updateVariant_lookup|].
    by rewrite bool_decide_eq_false_2.
Qed.

Lemma X8_variant_edit_is_local_witness :
  map visitors
    (results (simulation
                (updateVariant "v3" (EditPrice (lit 4990)) initialVariants)
                initialAssumptions))
  = map visitors (results (simulation initialVariants initialAssumptions))
  ∧ ∃ r r',
      results (simulation initialVariants initialAssumptions) !! 0%nat
      = Some r
      ∧ results (simulation
                   (updateVariant "v3" (EditPrice (lit 4990)) initialVariants)
                   initialAssumptions) !! 0%nat = Some r'
      ∧ metricsOf r' = metricsOf r.
Proof.
  destruct (X8_variant_edit_is_local "v3" (EditPrice (lit 4990))
              initialVariants initialAssumptions eq_refl)
    as (_ & Hvis & _ & Hloc).
  split; [exact Hvis|].
  destruct (Hloc 0%nat _ eq_refl ltac:(discriminate))
    as (r & r' & Hr & Hr' & _ & Hm).
  by exists r, r'.
Defined.

(** ** Invariants of the engine *)

Lemma notNegative_nmul x y :
  notNegative x = true → notNegative y = true →
  notNegative (nmul x y) = true.
Proof.
  unfold notNegative, lit.
  destruct x as [| | |a], y as [| | |b]; simpl; try done.
  - rewrite !negb_true_iff, !bool_decide_eq_false. intros _ Hb.
    destruct (b ?= 0) eqn:Hcmp; simpl; try done.
    all: try (by apply Qclt_alt in Hcmp).
  - rewrite !negb_true_iff, !bool_decide_eq_false. intros Ha _.
    destruct (a ?= 0) eqn:Hcmp; simpl; try done.
    all: try (by apply Qclt_alt in Hcmp).
  - rewrite !negb_true_iff, !bool_decide_eq_false. intros Ha Hb.
    apply Qcle_not_lt, Qcmult_nonneg_nonneg; by apply Qcnot_lt_le.
Qed.

Lemma notNegative_ndiv_pos x k :
  notNegative x = true → 0 < k → notNegative (ndiv x (Fin k)) = true.
Proof.
  unfold notNegative, lit.
  destruct x as [| | |a]; simpl; try done.
  - intros _ Hk.
    by rewrite decide_False by (by apply Qcle_not_lt, Qclt_le_weak).
  - rewrite !negb_true_iff, !bool_decide_eq_false. intros Ha Hk.
    rewrite decide_False by (intros ->; by apply (Qclt_not_eq _ _ Hk)).
    simpl. rewrite bool_decide_eq_false. apply Qcle_not_lt. unfold Qcdiv.
    apply Qcmult_nonneg_nonneg; [by apply Qcnot_lt_le|].
    by apply Qclt_le_weak, Qcinv_pos.
Qed.

Lemma notNegative_rpv rev vis :
  notNegative rev = true →
  notNegative (if ngt vis (lit 0) then ndiv rev vis else lit 0) = true.
Proof.
  intros Hrev. destruct (ngt vis (lit 0)) eqn:Hpos; [|done].
  destruct vis as [| | |x]; try done.
  - by destruct rev.
  - apply notNegative_ndiv_pos; [done|]. by apply bool_decide_eq_true in Hpos.
Qed.

(** X9.  When the traffic, and the price, traffic split and conversion
    rate of a variant are not negative, none of the five figures of its
    result is negative: [x < 0] is false for each of them.  (A figure can
    still be NaN or infinite; the statement is about the sign only.) *)
Theorem X9_figures_nonnegative vs a i v :
  vs !! i = Some v →
  nlt (monthlyTraffic a) (lit 0) = false →
  nlt (price v) (lit 0) = false →
  nlt (trafficSplit (assumptionsOf a v)) (lit 0) = false →
  nlt (convRate (assumptionsOf a v)) (lit 0) = false →
  ∃ r, results (simulation vs a) !! i = Some r
    ∧ nlt (visitors r) (lit 0) = false
    ∧ nlt (conversions r) (lit 0) = false
    ∧ nlt (revenue r) (lit 0) = false
    ∧ nlt (arpu r) (lit 0) = false
    ∧ nlt (rpv r) (lit 0) = false.
Proof.
  intros Hv Ht Hp Hs Hc. eexists. split; [by apply simulation_lookup|].
  rewrite flagLeader_visitors, flagLeader_conversions, flagLeader_revenue,
    flagLeader_arpu, flagLeader_rpv.
  rewrite <-!negb_true_iff in *.
  fold (notNegative (monthlyTraffic a)) in Ht.
  fold (notNegative (price v)) in Hp.
  fold (notNegative (trafficSplit (assumptionsOf a v))) in Hs.
  fold (notNegative (convRate (assumptionsOf a v))) in Hc.
  fold (notNegative (visitors (resultOf a v))).
  fold (notNegative (conversions (resultOf a v))).
  fold (notNegative (revenue (resultOf a v))).
  fold (notNegative (arpu (resultOf a v))).
  fold (notNegative (rpv (resultOf a v))).
  assert (notNegative (visitors (resultOf a v)) = true) as Hvis.
  { rewrite resultOf_visitors. apply notNegative_nmul; [done|].
    by apply notNegative_ndiv_pos. }
  assert (notNegative (conversions (resultOf a v)) = true) as Hcv.
  { rewrite resultOf_conversions. apply notNegative_nmul; [done|].
    by apply notNegative_ndiv_pos. }
  assert (notNegative (revenue (resultOf a v)) = true) as Hrev.
  { rewrite resultOf_revenue. destruct (billingCycle v).
    - by apply notNegative_nmul.
    - apply notNegative_ndiv_pos; [by apply notNegative_nmul|done]. }
  repeat split; try done.
  - rewrite resultOf_arpu.
    destruct (ngt (conversions (resultOf a v)) (lit 0)); [|done].
    destruct (billingCycle v); [done|]. by apply notNegative_ndiv_pos.
  - rewrite resultOf_rpv. by apply notNegative_rpv.
Qed.

Lemma X9_figures_nonnegative_witness :
  ∃ r, results (simulation initialVariants initialAssumptions) !! 2%nat
       = Some r
    ∧ nlt (visitors r) (lit 0) = false
    ∧ nlt (conversions r) (lit 0) = false
    ∧ nlt (revenue r) (lit 0) = false
    ∧ nlt (arpu r) (lit 0) = false
    ∧ nlt (rpv r) (lit 0) = false.
Proof.
  by apply (X9_figures_nonnegative initialVariants initialAssumptions 2%nat
              annualPlan).
Defined.

(** X10.  In an output of the engine some result is flagged revenue
    leader exactly when no revenue is [NaN] and some revenue is positive;
    a single [NaN] revenue therefore removes the flag from every result.
    The same holds for the RPV flag and the rpv values. *)
Theorem X10_leader_exists vs a :
  ((∃ r, r ∈ results (simulation vs a) ∧ isRevenueLeader r = true)
   ↔ (∀ r, r ∈ results (simulation vs a) → revenue r ≠ NaN)
     ∧ ∃ r, r ∈ results (simulation vs a) ∧ ngt (revenue r) (lit 0) = true)
  ∧ ((∃ r, r ∈ results (simulation vs a) ∧ isRPVLeader r = true)
     ↔ (∀ r, r ∈ results (simulation vs a) → rpv r ≠ NaN)
       ∧ ∃ r, r ∈ results (simulation vs a) ∧ ngt (rpv r) (lit 0) = true).
Proof.
  split.
  - split.
    + intros (r & Hr & Hflag).
      destruct (simulation_flags vs a r Hr) as [Hrev _].
      rewrite Hrev in Hflag.
      destruct (proj1 (some_leader_iff
                  (map revenue (results (simulation vs a)))))
        as [Hnan (x & (r' & -> & Hr')%list_elem_of_fmap & Hpos)].
      { exists (revenue r). split; [by apply list_elem_of_fmap_2|done]. }
      split; [|by exists r'].
      intros r0 Hr0 H0. apply Hnan. rewrite <-H0.
      by apply list_elem_of_fmap_2.
    + intros [Hnan (r & Hr & Hpos)].
      destruct (proj2 (some_leader_iff
                  (map revenue (results (simulation vs a)))))
        as (x & (r' & -> & Hr')%list_elem_of_fmap & Htest).
      { split.
        - intros (r0 & H0 & Hr0)%list_elem_of_fmap. by apply (Hnan r0).
        - exists (revenue r). split; [by apply list_elem_of_fmap_2|done]. }
      exists r'. split; [done|].
      by destruct (simulation_flags vs a r' Hr') as [-> _].
  - split.
    + intros (r & Hr & Hflag).
      destruct (simulation_flags vs a r Hr) as [_ Hrpv].
      rewrite Hrpv in Hflag.
      destruct (proj1 (some_leader_iff (map rpv (results (simulation vs a)))))
        as [Hnan (x & (r' & -> & Hr')%list_elem_of_fmap & Hpos)].
      { exists (rpv r). split; [by apply list_elem_of_fmap_2|done]. }
      split; [|by exists r'].
      intros r0 Hr0 H0. apply Hnan. rewrite <-H0.
      by apply list_elem_of_fmap_2.
    + intros [Hnan (r & Hr & Hpos)].
      destruct (proj2 (some_leader_iff (map rpv (results (simulation vs a)))))
        as (x & (r' & -> & Hr')%list_elem_of_fmap & Htest).
      { split.
        - intros (r0 & H0 & Hr0)%list_elem_of_fmap. by apply (Hnan r0).
        - exists (rpv r). split; [by apply list_elem_of_fmap_2|done]. }
      exists r'. split; [done|].
      by destruct (simulation_flags vs a r' Hr') as [_ ->].
Qed.

Lemma X10_leader_exists_witness :
  (∀ r, r ∈ results (simulation initialVariants initialAssumptions) →
        rpv r ≠ NaN)
  ∧ (∃ r, r ∈ results (simulation initialVariants initialAssumptions)
          ∧ ngt (rpv r) (lit 0) = true)
  ∧ ∃ r, r ∈ results (simulation initialVariants initialAssumptions)
         ∧ isRPVLeader r = true.
Proof.
  assert (∀ r, r ∈ results (simulation initialVariants initialAssumptions) →
               rpv r ≠ NaN) as Hnan.
  { apply Forall_forall. vm_compute. repeat constructor; discriminate. }
  assert (∃ r, r ∈ results (simulation initialVariants initialAssumptions)
               ∧ ngt (rpv r) (lit 0) = true) as Hpos.
  { apply Exists_exists. vm_compute. left. reflexivity. }
  split; [exact Hnan|]. split; [exact Hpos|].
  apply (proj2 (proj2 (X10_leader_exists initialVariants initialAssumptions))).
  by split.
Defined.

(** ** The leader, the sentence and the cards *)

Lemma leader_is_positive_maximum vs a r :
  r ∈ results (simulation vs a) → isRPVLeader r = true →
  ngt (rpv r) (lit 0) = true
  ∧ ngt (visitors r) (lit 0) = true
  ∧ ∀ r', r' ∈ results (simulation vs a) → nle (rpv r') (rpv r) = true.
Proof.
  intros Hr Hflag.
  destruct (simulation_flags vs a r Hr) as [_ Hrpv]. rewrite Hrpv in Hflag.
  apply leader_test_iff in Hflag as [Hub Hpos];
    [|by apply list_elem_of_fmap_2].
  split; [done|]. split.
  - rewrite simulation_results, markLeaders_map in Hr.
    apply list_elem_of_fmap in Hr as (r0 & -> & Hr0).
    apply list_elem_of_fmap in Hr0 as (v & -> & _).
    rewrite flagLeader_rpv, resultOf_rpv in Hpos.
    rewrite flagLeader_visitors.
    by destruct (ngt (visitors (resultOf a v)) (lit 0)).
  - intros r' Hr'. by apply Hub, list_elem_of_fmap_2.
Qed.

Lemma findLeader_elem sim leader :
  findLeader sim = Some leader →
  leader ∈ results sim ∧ isRPVLeader leader = true.
Proof.
  intros [Hin Hflag]%find_some. split; [by apply list_elem_of_In|done].
Qed.

Lemma findControl_elem sim control :
  findControl sim = Some control →
  control ∈ results sim ∧ VR.variantId control = "v1".
Proof.
  intros [Hin Hid]%find_some. split; [by apply list_elem_of_In|].
  by apply bool_decide_eq_true in Hid.
Qed.

(** X11.  In an output of the engine the result that the insight
    generator takes as leader has a positive rpv and positive visitors, so
    the quotient [leader.conversions / leader.visitors] of the sentence is
    never a division by zero, and no result has a larger rpv. *)
Theorem X11_leader_has_visitors vs a leader :
  findLeader (simulation vs a) = Some leader →
  ngt (rpv leader) (lit 0) = true
  ∧ ngt (visitors leader) (lit 0) = true
  ∧ ∀ r, r ∈ results (simulation vs a) → nle (rpv r) (rpv leader) = true.
Proof.
  intros [Hin Hflag]%findLeader_elem.
  by apply leader_is_positive_maximum.
Qed.

Lemma X11_leader_has_visitors_witness :
  ∃ leader,
    findLeader (simulation initialVariants initialAssumptions) = Some leader
    ∧ ngt (rpv leader) (lit 0) = true
    ∧ ngt (visitors leader) (lit 0) = true.
Proof.
  destruct (findLeader (simulation initialVariants initialAssumptions))
    as [leader|] eqn:Hl; [|by vm_compute in Hl].
  exists leader. split; [done|].
  destruct (X11_leader_has_visitors _ _ _ Hl) as (Hrpv & Hvis & _).
  by split.
Defined.

Lemma Qcminus_0 (q : Qc) : q + - 0 = q.
Proof. ring. Qed.

Lemma relLift_zero_base (x : number) :
  ngt x (lit 0) = true → relLift (lit 0) x = PosInf.
Proof.
  unfold relLift, nsub, lit. destruct x as [| | |q]; simpl; try done.
  rewrite bool_decide_eq_true. intros Hq. rewrite Qcminus_0.
  by rewrite (proj1 (Qcgt_alt q 0) Hq).
Qed.

Lemma relLift_self (c : Qc) : 0 < c → relLift (Fin c) (Fin c) = lit 0.
Proof.
  intros Hc. unfold relLift, nsub, lit. simpl.
  rewrite decide_False by (intros ->; by apply (Qclt_not_eq _ _ Hc)).
  simpl. f_equal. rewrite Qcplus_opp_r. unfold Qcdiv.
  by rewrite !Qcmult_0_l.
Qed.

Lemma relLift_mono (c : Qc) (x y : number) :
  0 < c → nle x y = true →
  nle (relLift (Fin c) x) (relLift (Fin c) y) = true.
Proof.
  intros Hc. pose proof (Qclt_not_eq _ _ Hc) as Hne.
  assert (¬ c < 0) as Hnn by (by apply Qcle_not_lt, Qclt_le_weak).
  unfold relLift, nsub.
  destruct x as [| | |a], y as [| | |b]; simpl; try done;
    rewrite ?(decide_False (P := c = 0)) by (by intros ->);
    rewrite ?(decide_False (P := c < 0)) by done; simpl; try done.
  rewrite !bool_decide_eq_true. intros Hab.
  apply Qcmult_le_compat_r; [|done].
  unfold Qcdiv. apply Qcmult_le_compat_r;
    [|by apply Qclt_le_weak, Qcinv_pos].
  by apply Qcplus_le_mono_r.
Qed.

Section LeaderAndCards.

Variable toStringLarge : Qc → string.

Local Abbreviation experimentInsight := (experimentInsight toStringLarge).
Local Abbreviation cardLiftText := (cardLiftText toStringLarge).

(** X12.  When the control result of an output of the engine received
    no visitors ([visitors === 0]), its rpv is the 0 of line 53 and the
    lift of the sentence divides by it.  The lift is [+Infinity]; the
    quotient control.conversions / control.visitors is 0/0, so convDiff is
    NaN and no clause is appended: for a leader other than ["v1"] the
    sentence is "<name> is the winner with a Infinity% efficiency lift
    over Control. " and nothing more, while the card of the same leader,
    whose lift is guarded, shows "0.0%". *)
Theorem X12_zero_control_gives_infinite_lift vs a leader control :
  findLeader (simulation vs a) = Some leader →
  findControl (simulation vs a) = Some control →
  neq (visitors control) (lit 0) = true →
  rpv control = lit 0
  ∧ liftOf leader control = PosInf
  ∧ convDiffOf leader control = NaN
  ∧ (VR.variantId leader ≠ "v1" →
     experimentInsight (simulation vs a)
     = VR.name leader
       +:+ " is the winner with a Infinity% efficiency lift over Control. ")
  ∧ cardLiftText (cardLift (findControl (simulation vs a)) leader) = "0.0%".
Proof.
  intros Hl Hc [Hvis _]%neq_true.
  destruct (findLeader_elem _ _ Hl) as [Hin Hflag].
  destruct (leader_is_positive_maximum vs a leader Hin Hflag)
    as (Hpos & _ & _).
  destruct (findControl_elem _ _ Hc) as [Hcin _].
  assert (rpv control = lit 0
          ∧ ndiv (conversions control) (visitors control) = NaN)
    as [Hzero Hquot].
  { rewrite simulation_results, markLeaders_map in Hcin.
    apply list_elem_of_fmap in Hcin as (r0 & -> & Hr0).
    apply list_elem_of_fmap in Hr0 as (v & -> & _).
    rewrite flagLeader_visitors in Hvis.
    rewrite flagLeader_rpv, flagLeader_conversions, flagLeader_visitors.
    rewrite resultOf_rpv, resultOf_conversions, Hvis. split; [done|].
    unfold lit.
    by destruct (ndiv (convRate (assumptionsOf a v)) (Fin (Q2Qc 100))). }
  assert (liftOf leader control = PosInf) as Hlift.
  { unfold liftOf. rewrite Hzero. by apply relLift_zero_base. }
  assert (convDiffOf leader control = NaN) as Hdiff.
  { unfold convDiffOf. rewrite Hquot.
    by destruct (ndiv (conversions leader) (visitors leader)). }
  split; [done|]. split; [done|]. split; [done|]. split.
  - intros Hid. unfold experimentInsight. rewrite Hl, Hc.
    rewrite bool_decide_eq_false_2 by done.
    unfold winnerText. cbv zeta. rewrite Hlift, Hdiff.
    unfold qualifyingClause. cbn [ngt nlt andb].
    rewrite string_app_empty_r. reflexivity.
  - rewrite Hc. unfold cardLift. rewrite Hzero. by vm_compute.
Qed.

(** X13.  When the control result has a finite positive rpv, in an
    output of the engine: the card of the control shows lift 0; the card
    of the leader shows the lift that the sentence reports; that lift is
    not negative; and no card shows a larger lift than the leader's. *)
Theorem X13_leader_card_and_sentence_agree vs a leader control c :
  findLeader (simulation vs a) = Some leader →
  findControl (simulation vs a) = Some control →
  rpv control = Fin c → 0 < c →
  cardLift (findControl (simulation vs a)) control = lit 0
  ∧ cardLift (findControl (simulation vs a)) leader = liftOf leader control
  ∧ nle (lit 0) (liftOf leader control) = true
  ∧ ∀ r, r ∈ results (simulation vs a) →
         nle (cardLift (findControl (simulation vs a)) r)
             (cardLift (findControl (simulation vs a)) leader) = true.
Proof.
  intros Hl Hc Hrpv Hpos.
  destruct (findLeader_elem _ _ Hl) as [Hin Hflag].
  destruct (findControl_elem _ _ Hc) as [Hcin _].
  destruct (leader_is_positive_maximum vs a leader Hin Hflag)
    as (_ & _ & Hmax).
  assert (ngt (Fin c) (lit 0) = true) as Hgt by (by apply bool_decide_eq_true).
  rewrite Hc. unfold cardLift, liftOf. rewrite Hrpv, Hgt.
  fold (relLift (Fin c) (Fin c)). fold (relLift (Fin c) (rpv leader)).
  split; [by apply relLift_self|]. split; [done|]. split.
  - rewrite <-(relLift_self c Hpos). apply relLift_mono; [done|].
    rewrite <-Hrpv. by apply Hmax.
  - intros r Hr. fold (relLift (Fin c) (rpv r)).
    apply relLift_mono; [done|]. by apply Hmax.
Qed.

End LeaderAndCards.

Lemma X12_zero_control_gives_infinite_lift_witness :
  experimentInsight plainLarge
    (simulation initialVariants idleControlAssumptions)
  = "Test Variant 1 is the winner with a Infinity% efficiency lift over Control. ".
Proof.
  destruct (findLeader (simulation initialVariants idleControlAssumptions))
    as [leader|] eqn:Hl; [|by vm_compute in Hl].
  destruct (findControl (simulation initialVariants idleControlAssumptions))
    as [control|] eqn:Hc; [|by vm_compute in Hc].
  pose proof Hl as Hl'. vm_compute in Hl'. injection Hl' as <-.
  pose proof Hc as Hc'. vm_compute in Hc'. injection Hc' as <-.
  rewrite (proj1 (proj2 (proj2 (proj2
             (X12_zero_control_gives_infinite_lift plainLarge _ _ _ _
                Hl Hc eq_refl)))) ltac:(discriminate)).
  reflexivity.
Defined.

Lemma X13_leader_card_and_sentence_agree_witness :
  ∃ leader control,
    findLeader (simulation initialVariants initialAssumptions) = Some leader
    ∧ findControl (simulation initialVariants initialAssumptions)
      = Some control
    ∧ cardLift (findControl (simulation initialVariants initialAssumptions))
        control = lit 0
    ∧ nle (lit 0) (liftOf leader control) = true.
Proof.
  destruct (findLeader (simulation initialVariants initialAssumptions))
    as [leader|] eqn:Hl; [|by vm_compute in Hl].
  destruct (findControl (simulation initialVariants initialAssumptions))
    as [control|] eqn:Hc; [|by vm_compute in Hc].
  pose proof Hc as Hc'. vm_compute in Hc'. injection Hc' as <-.
  eexists _, _. split; [reflexivity|]. split; [reflexivity|].
  edestruct (X13_leader_card_and_sentence_agree
               initialVariants initialAssumptions leader _ _ Hl Hc eq_refl)
    as (Hzero & _ & Hnonneg & _); [done|].
  rewrite Hc in Hzero. by split.
Defined.

(** ** RPV in closed form *)

Lemma Qc_cancel_l (x k : Qc) : x ≠ 0 → x * k / x = k.
Proof.
  intros Hx. unfold Qcdiv.
  by rewrite (Qcmult_comm x k), <-Qcmult_assoc, Qcmult_inv_r, Qcmult_1_r.
Qed.

Lemma hundred_pos : 0 < Q2Qc 100.
Proof. done. Qed.

Lemma resultOf_rpv_closed a v t s c p :
  monthlyTraffic a = Fin t → 0 < t →
  trafficSplit (assumptionsOf a v) = Fin s → 0 < s →
  convRate (assumptionsOf a v) = Fin c → price v = Fin p →
  rpv (resultOf a v) = nmul (ndiv (Fin c) (lit 100)) (monthlyPrice v).
Proof.
  intros Ht Htpos Hs Hspos Hc Hp.
  rewrite resultOf_rpv, resultOf_revenue, resultOf_conversions,
    resultOf_visitors.
  unfold monthlyPrice. rewrite Ht, Hs, Hc, Hp. unfold lit.
  set (x := t * (s / Q2Qc 100)).
  assert (0 < x) as Hx.
  { apply Qcmult_pos_pos; [done|]. unfold Qcdiv.
    apply Qcmult_pos_pos; [done|]. apply Qcinv_pos, hundred_pos. }
  assert (x ≠ 0) as Hx0 by (intros H0; rewrite H0 in Hx;
                              by apply (Qclt_not_eq _ _ Hx)).
  assert (ndiv (Fin s) (Fin (Q2Qc 100)) = Fin (s / Q2Qc 100)) as -> by done.
  assert (ndiv (Fin c) (Fin (Q2Qc 100)) = Fin (c / Q2Qc 100)) as -> by done.
  cbn [nmul]. fold x.
  assert (ngt (Fin x) (Fin (Q2Qc 0)) = true) as ->
    by (by apply bool_decide_eq_true).
  destruct (billingCycle v).
  - cbn [nmul ndiv]. rewrite decide_False by done. f_equal.
    rewrite <-Qcmult_assoc. by apply Qc_cancel_l.
  - assert (ndiv (Fin (x * (c / Q2Qc 100) * p)) (Fin (Q2Qc 12))
            = Fin (x * (c / Q2Qc 100) * p / Q2Qc 12)) as -> by done.
    assert (ndiv (Fin p) (Fin (Q2Qc 12)) = Fin (p / Q2Qc 12)) as -> by done.
    cbn [nmul ndiv]. rewrite decide_False by done. f_equal.
    unfold Qcdiv at 2. rewrite <-!Qcmult_assoc.
    rewrite (Qc_cancel_l x _ Hx0). unfold Qcdiv. by rewrite !Qcmult_assoc.
Qed.

(** X14.  In exact arithmetic, for a variant that receives visitors (finite
    positive traffic and split) and has a finite conversion rate and
    price, rpv = (convRate / 100) * monthly-equivalent price: it does not
    depend on the traffic or on the traffic split. *)
Theorem X14_rpv_closed_form vs a i v t s c p :
  vs !! i = Some v →
  monthlyTraffic a = Fin t → 0 < t →
  trafficSplit (assumptionsOf a v) = Fin s → 0 < s →
  convRate (assumptionsOf a v) = Fin c → price v = Fin p →
  ∃ r, results (simulation vs a) !! i = Some r
    ∧ rpv r = nmul (ndiv (Fin c) (lit 100)) (monthlyPrice v).
Proof.
  intros Hv Ht Htpos Hs Hspos Hc Hp.
  eexists. split; [by apply simulation_lookup|].
  rewrite flagLeader_rpv. by apply (resultOf_rpv_closed a v t s c p).
Qed.

Lemma X14_rpv_closed_form_witness :
  ∃ r, results (simulation initialVariants initialAssumptions) !! 2%nat
       = Some r
    ∧ rpv r = nmul (ndiv (lit 2.8) (lit 100)) (monthlyPrice annualPlan).
Proof.
  apply (X14_rpv_closed_form initialVariants initialAssumptions 2%nat
           annualPlan (Q2Qc 25000) (Q2Qc 33) (Q2Qc 2.8) (Q2Qc 3990));
    reflexivity.
Defined.

(** ** The traffic bar *)

(** X15.  The width of a segment of the traffic bar is the traffic split
    that the engine uses for the variant (0 when the variant has no
    entry), except when that split is [NaN]: the bar then shows 0 while
    the engine computes with [NaN]. *)
Theorem X15_bar_shows_engine_split a v :
  (splitOf a v ≠ NaN → barSplit a v = splitOf a v)
  ∧ (splitOf a v = NaN → barSplit a v = lit 0).
Proof.
  unfold barSplit, splitOf, assumptionsOf.
  destruct (perVariantAssumptions a !! id v) as [va|]; simpl;
    [|by case_bool_decide].
  destruct (trafficSplit va) as [| | |q]; simpl; try done.
  split; [|done]. intros _. case_bool_decide as Hq; simpl; [|done].
  by rewrite Hq.
Qed.

Lemma X15_bar_shows_engine_split_witness :
  barSplit initialAssumptions annualPlan = lit 33
  ∧ splitOf brokenSplitAssumptions
      (mkPricingVariant "v1" "Control" (lit 499) Monthly "" true) = NaN
  ∧ barSplit brokenSplitAssumptions
      (mkPricingVariant "v1" "Control" (lit 499) Monthly "" true) = lit 0.
Proof.
  split; [|split; [reflexivity|]].
  - rewrite (proj1 (X15_bar_shows_engine_split initialAssumptions annualPlan));
      [reflexivity|discriminate].
  - apply (proj2 (X15_bar_shows_engine_split brokenSplitAssumptions _)).
    reflexivity.
Defined.

(** ** The figures of the analysis request *)

Lemma find_ext_elem {A} (f g : A → bool) (l : list A) :
  (∀ x, x ∈ l → f x = g x) → List.find f l = List.find g l.
Proof.
  induction l as [|x l IH]; intros Hfg; [done|]. simpl.
  rewrite (Hfg x) by (apply elem_of_cons; by left).
  destruct (g x); [done|]. apply IH. intros y Hy.
  apply Hfg, elem_of_cons. by right.
Qed.

Lemma find_id_elem (vs : list PricingVariant) (v : PricingVariant) :
  v ∈ vs →
  ∃ v0, List.find (λ variant, bool_decide (id variant = id v)) vs = Some v0
        ∧ v0 ∈ vs ∧ id v0 = id v.
Proof.
  intros Hv.
  destruct (List.find (λ variant, bool_decide (id variant = id v)) vs)
    as [v0|] eqn:Hfind.
  - apply find_some in Hfind as [Hin Hid]. exists v0.
    split; [done|]. split; [by apply list_elem_of_In|].
    by apply bool_decide_eq_true in Hid.
  - apply list_elem_of_In in Hv.
    pose proof (find_none _ _ Hfind v Hv) as H. simpl in H.
    by apply bool_decide_eq_false in H.
Qed.

Lemma result_has_variant vs a r :
  r ∈ results (simulation vs a) → ∃ v, v ∈ vs ∧ VR.variantId r = id v.
Proof.
  rewrite simulation_results, markLeaders_map.
  intros (r0 & -> & Hr0)%list_elem_of_fmap.
  apply list_elem_of_fmap in Hr0 as (v & -> & Hv). by exists v.
Qed.

(** X16.  The analysis request takes as control the first result whose
    variant has [isControl] set, whereas the sentence and the cards take
    the result with id ["v1"].  The two coincide on every output of the
    engine when exactly the variants with id ["v1"] are flagged; when no
    variant is flagged the request has no control and all its lifts are
    0. *)
Theorem X16_analysis_control vs a :
  ((∀ v, v ∈ vs → isControl v = true ↔ id v = "v1") →
   analysisControl (simulation vs a) vs = findControl (simulation vs a))
  ∧ ((∀ v, v ∈ vs → isControl v = false) →
     analysisControl (simulation vs a) vs = None
     ∧ ∀ result,
         revenueLift (analysisControl (simulation vs a) vs) result = lit 0
         ∧ conversionLift (analysisControl (simulation vs a) vs) result
           = lit 0).
Proof.
  split.
  - intros Hflags. unfold analysisControl, findControl.
    apply find_ext_elem. intros r Hr.
    destruct (result_has_variant vs a r Hr) as (v & Hv & Hid).
    destruct (find_id_elem vs v Hv) as (v0 & Hfind & Hv0 & Hid0).
    rewrite Hid, Hfind.
    destruct (isControl v0) eqn:Hc.
    + symmetry. apply bool_decide_eq_true.
      rewrite <-Hid0. by apply Hflags.
    + symmetry. apply bool_decide_eq_false. rewrite <-Hid0.
      intros H1. apply Hflags in H1; [congruence|done].
  - intros Hnone.
    assert (analysisControl (simulation vs a) vs = None) as Hno.
    { unfold analysisControl.
      destruct (List.find _ (results (simulation vs a))) as [r|] eqn:Hfind;
        [|done].
      apply find_some in Hfind as [_ Hflag].
      destruct (List.find _ vs) as [v0|] eqn:Hv0; [|done].
      apply find_some in Hv0 as [Hin _].
      apply list_elem_of_In in Hin. by rewrite (Hnone v0 Hin) in Hflag. }
    split; [done|]. intros result. by rewrite Hno.
Qed.

Lemma X16_analysis_control_witness :
  analysisControl (simulation initialVariants initialAssumptions)
    initialVariants
  = findControl (simulation initialVariants initialAssumptions)
  ∧ analysisControl
      (simulation
         (updateVariant "v1" (EditIsControl false) initialVariants)
         initialAssumptions)
      (updateVariant "v1" (EditIsControl false) initialVariants)
    = None.
Proof.
  split.
  - apply (proj1 (X16_analysis_control initialVariants initialAssumptions)).
    apply Forall_forall. repeat constructor; try done; discriminate.
  - apply (proj2 (X16_analysis_control
                    (updateVariant "v1" (EditIsControl false) initialVariants)
                    initialAssumptions)).
    apply Forall_forall. repeat constructor.
Defined.

Lemma nne_fin_true (q : Qc) : nne (Fin q) (lit 0) = true → q ≠ 0.
Proof.
  unfold nne, lit. simpl. rewrite negb_true_iff, bool_decide_eq_false.
  by intros Hq.
Qed.

Lemma isFinite_relLift (c x : Qc) :
  c ≠ 0 → isFinite (relLift (Fin c) (Fin x)) = true.
Proof. intros Hc. unfold relLift, nsub. simpl. by rewrite decide_False. Qed.

Lemma isFinite_convRateOf (x : option VariantResult) :
  finiteFigures x = true → isFinite (convRateOf x) = true.
Proof.
  destruct x as [r|]; [|done]. simpl.
  rewrite !andb_true_iff. intros [[Hv Hc] _].
  destruct (visitors r) as [| | |v] eqn:Ev; try done.
  destruct (conversions r) as [| | |k]; try done.
  destruct (nne (Fin v) (lit 0)) eqn:Hne; [|done].
  apply nne_fin_true in Hne. simpl. by rewrite decide_False.
Qed.

(** X17.  The lifts of the analysis request are guarded against a zero
    denominator: when the visitors, conversions and revenue of the two
    results are finite, the revenue lift and the conversion lift are
    finite numbers (never [NaN] or an infinity, unlike the lift of the
    sentence), and the lifts of the control against itself are 0. *)
Theorem X17_analysis_lifts_are_guarded controlResult result :
  finiteFigures controlResult = true → finiteFigures result = true →
  isFinite (revenueLift controlResult result) = true
  ∧ isFinite (conversionLift controlResult result) = true
  ∧ revenueLift controlResult controlResult = lit 0
  ∧ conversionLift controlResult controlResult = lit 0.
Proof.
  intros Hc Hr.
  pose proof (isFinite_convRateOf _ Hc) as Hcc.
  pose proof (isFinite_convRateOf _ Hr) as Hrc.
  split; [|split; [|split]].
  - destruct controlResult as [c|], result as [r|]; try done.
    simpl in Hc, Hr. apply andb_true_iff in Hc as [_ Hc].
    apply andb_true_iff in Hr as [_ Hr]. unfold revenueLift.
    destruct (revenue c) as [| | |x] eqn:Ec; try done.
    destruct (revenue r) as [| | |y] eqn:Er; try done.
    destruct (nne (Fin x) (lit 0)) eqn:Hne; [|done].
    apply nne_fin_true in Hne. by apply isFinite_relLift.
  - unfold conversionLift.
    destruct (convRateOf controlResult) as [| | |x]; try done.
    destruct (convRateOf result) as [| | |y]; try done.
    destruct (nne (Fin x) (lit 0)) eqn:Hne; [|done].
    apply nne_fin_true in Hne. by apply isFinite_relLift.
  - destruct controlResult as [c|]; [|done].
    simpl in Hc. apply andb_true_iff in Hc as [_ Hc]. unfold revenueLift.
    destruct (revenue c) as [| | |x] eqn:Ec; try done.
    destruct (nne (Fin x) (lit 0)) eqn:Hne; [|done].
    apply nne_fin_true in Hne. unfold nsub, lit. simpl.
    rewrite decide_False by done. f_equal.
    rewrite Qcplus_opp_r. unfold Qcdiv. by rewrite !Qcmult_0_l.
  - unfold conversionLift.
    destruct (convRateOf controlResult) as [| | |x]; try done.
    destruct (nne (Fin x) (lit 0)) eqn:Hne; [|done].
    apply nne_fin_true in Hne. unfold nsub, lit. simpl.
    rewrite decide_False by done. f_equal.
    rewrite Qcplus_opp_r. unfold Qcdiv. by rewrite !Qcmult_0_l.
Qed.

Lemma X17_analysis_lifts_are_guarded_witness :
  isFinite
    (revenueLift
       (findControl (simulation initialVariants idleControlAssumptions))
       (findLeader (simulation initialVariants idleControlAssumptions)))
  = true
  ∧ isFinite
      (conversionLift
         (findControl (simulation initialVariants idleControlAssumptions))
         (findLeader (simulation initialVariants idleControlAssumptions)))
    = true.
Proof.
  destruct (X17_analysis_lifts_are_guarded
              (findControl (simulation initialVariants idleControlAssumptions))
              (findLeader (simulation initialVariants idleControlAssumptions)))
    as (Hrev & Hconv & _); [vm_compute; reflexivity..|].
  by split.
Defined.

(** ** No traffic at all *)

Lemma visitors_zero_split a v :
  isFinite (monthlyTraffic a) = true →
  neq (splitOf a v) (lit 0) = true →
  visitors (resultOf a v) = lit 0.
Proof.
  intros Ht [Hs _]%neq_true. rewrite resultOf_visitors.
  unfold splitOf in Hs. rewrite Hs, zero_percent. by apply nmul_fin_0.
Qed.

Section NoTraffic.

Variable toStringLarge : Qc → string.

Local Abbreviation experimentInsight := (experimentInsight toStringLarge).

(** X18.  When the traffic is finite and every variant of the list has a
    traffic split of 0 (set to 0 or without an entry), every result has 0
    visitors and rpv 0, no result is flagged RPV leader, and the insight
    is the awaiting-data placeholder, whatever the prices and conversion
    rates are. *)
Theorem X18_no_traffic_no_leader vs a :
  isFinite (monthlyTraffic a) = true →
  (∀ v, v ∈ vs → neq (splitOf a v) (lit 0) = true) →
  (∀ r, r ∈ results (simulation vs a) →
        visitors r = lit 0 ∧ rpv r = lit 0 ∧ isRPVLeader r = false)
  ∧ experimentInsight (simulation vs a) = awaitingText.
Proof.
  intros Ht Hzero.
  assert (∀ r, r ∈ results (simulation vs a) →
               visitors r = lit 0 ∧ rpv r = lit 0) as Hres.
  { intros r Hr. rewrite simulation_results, markLeaders_map in Hr.
    apply list_elem_of_fmap in Hr as (r0 & -> & Hr0).
    apply list_elem_of_fmap in Hr0 as (v & -> & Hv).
    rewrite flagLeader_visitors, flagLeader_rpv, resultOf_rpv.
    rewrite (visitors_zero_split a v Ht (Hzero v Hv)).
    by rewrite ngt_irrefl. }
  assert (∀ r, r ∈ results (simulation vs a) → isRPVLeader r = false)
    as Hflags.
  { intros r Hr. destruct (isRPVLeader r) eqn:Hflag; [|done].
    destruct (leader_is_positive_maximum vs a r Hr Hflag) as (Hpos & _).
    destruct (Hres r Hr) as [_ Hrpv]. rewrite Hrpv in Hpos.
    by rewrite ngt_irrefl in Hpos. }
  split.
  - intros r Hr. destruct (Hres r Hr). split; [done|]. split; [done|].
    by apply Hflags.
  - apply insight_awaiting_iff. left. apply find_leader_none.
    intros (r & Hr & Hflag). by rewrite (Hflags r Hr) in Hflag.
Qed.

End NoTraffic.

Lemma X18_no_traffic_no_leader_witness :
  experimentInsight plainLarge
    (simulation initialVariants noTrafficAssumptions)
  = awaitingText.
Proof.
  apply (X18_no_traffic_no_leader plainLarge initialVariants
           noTrafficAssumptions);
    [reflexivity|].
  apply Forall_forall. repeat constructor.
Defined.

(** ** Ties *)

Section Ties.

Variable toStringLarge : Qc → string.

Local Abbreviation experimentInsight := (experimentInsight toStringLarge).

(** X20.  Ties go to the control when it is listed first: if the first
    result of an output of the engine has id ["v1"] and a positive rpv
    that no result exceeds, the insight is the control-remains-best
    sentence, even when other results have the same rpv. *)
Theorem X20_first_listed_control_wins_ties vs a r0 :
  results (simulation vs a) !! 0%nat = Some r0 →
  VR.variantId r0 = "v1" →
  ngt (rpv r0) (lit 0) = true →
  (∀ r, r ∈ results (simulation vs a) → nle (rpv r) (rpv r0) = true) →
  experimentInsight (simulation vs a) = controlBestText.
Proof.
  intros H0 Hid Hpos Hmax.
  assert (r0 ∈ results (simulation vs a)) as Hin
    by (by eapply list_elem_of_lookup_2).
  assert (isRPVLeader r0 = true) as Hflag.
  { destruct (simulation_flags vs a r0 Hin) as [_ ->].
    apply leader_test_iff; [by apply list_elem_of_fmap_2|].
    split; [|done].
    intros y (r & -> & Hr)%list_elem_of_fmap. by apply Hmax. }
  destruct (results (simulation vs a)) as [|r rs] eqn:Hrs; [done|].
  injection H0 as ->.
  apply (insight_of_control_leader toStringLarge _ r0 r0); [| |done].
  - unfold findLeader. rewrite Hrs. simpl. by rewrite Hflag.
  - unfold findControl. rewrite Hrs. simpl.
    by rewrite bool_decide_eq_true_2.
Qed.

End Ties.

Lemma X20_first_listed_control_wins_ties_witness :
  (∃ r1 r2,
     results (simulation tiedVariants tiedAssumptions) = [r1; r2]
     ∧ rpv r1 = rpv r2 ∧ isRPVLeader r1 = true ∧ isRPVLeader r2 = true)
  ∧ experimentInsight plainLarge (simulation tiedVariants tiedAssumptions)
    = controlBestText.
Proof.
  split.
  - eexists _, _. split; [by rewrite simulation_results, markLeaders_map|].
    repeat split; compute_done.
  - eapply (X20_first_listed_control_wins_ties plainLarge).
    + by apply simulation_lookup.
    + reflexivity.
    + vm_compute; reflexivity.
    + apply Forall_forall. vm_compute. repeat constructor.
Defined.
